(** * Emotion recognition from speech: feature extraction and training glue

    A shallow embedding of the two notebooks of the repository:

    - the extraction notebook: the scan of the audio folders that parses
      every file name into a metadata record, [extract_mfcc], and the loop
      that assembles the feature tensor and the label vector;
    - the training notebook: [load_data] (normalisation, label encoding,
      one-hot expansion), [build_model], the index recovery of
      [evaluate_model] and the class count used by [main].

    Python strings are modelled as byte strings ([string]); the separators
    the code splits on are single ASCII characters, so splitting the UTF-8
    bytes agrees with splitting the code points.  Arrays of single-precision
    numbers are nested lists of IEEE-754 binary32 values ([spec_float] with
    precision 24 and maximal exponent 128) that carry their trailing
    dimensions.  Python exceptions are values of [exn]; a computation that may
    raise returns a [result]. *)

From Stdlib Require Import ZArith Lia QArith.
From Stdlib Require Import Ascii Floats.SpecFloat.
From stdpp Require Import base option list list_numbers sorting strings gmap.
From stdpp Require Import pretty.

Local Open Scope Z_scope.

(** ** Exceptions and results *)

(** An exception instance.  [exn_is_Exception] tells whether its class derives
    from [Exception] (as [ValueError], [IndexError] and the errors of the
    audio library do) or only from [BaseException] (as [KeyboardInterrupt]
    and [SystemExit] do); [exn_str] is what [str(e)] gives. *)
Record exn := Exn {
  exn_class : string;
  exn_is_Exception : bool;
  exn_str : string
}.

Definition ValueError (msg : string) : exn := Exn "ValueError" true msg.
Definition IndexError (msg : string) : exn := Exn "IndexError" true msg.

Inductive result (A : Type) : Type :=
| Ok (a : A)
| Raise (e : exn).
Arguments Ok {A} a.
Arguments Raise {A} e.

Definition bind {A B} (r : result A) (k : A -> result B) : result B :=
  match r with
  | Ok a => k a
  | Raise e => Raise e
  end.

Notation "x <- r ;; k" := (bind r (fun x => k))
  (at level 100, r at next level, right associativity).

(** A [for] loop whose body updates a state and may raise: the first raise
    ends the loop. *)
Fixpoint for_each {A S} (body : A -> S -> result S) (l : list A) (s : S)
  : result S :=
  match l with
  | [] => Ok s
  | a :: l' => s' <- body a s ;; for_each body l' s'
  end.

(** [l[i]] on a Python list. *)
Definition index {A} (l : list A) (i : nat) : result A :=
  match l !! i with
  | Some a => Ok a
  | None => Raise (IndexError "list index out of range")
  end.

(** ** String operations of the scan *)

(** [s.endswith(suffix)] *)
Definition endswith (s suffix : string) : bool :=
  let n := String.length s in
  let k := String.length suffix in
  (k <=? n)%nat && String.eqb (String.substring (n - k) k s) suffix.

(** [s.startswith(prefix)] *)
Definition startswith (s pre : string) : bool := String.prefix pre s.

(** [s.split(sep)] for a separator of one character: every occurrence of
    the separator ends a part, so the result is never empty. *)
Fixpoint split (sep : ascii) (s : string) : list string :=
  match s with
  | EmptyString => [EmptyString]
  | String c s' =>
      if Ascii.eqb c sep then EmptyString :: split sep s'
      else match split sep s' with
           | part :: parts => String c part :: parts
           | [] => [String c EmptyString]
           end
  end.

(** [os.path.join(a, b)] of posixpath. *)
Definition os_path_join (a b : string) : string :=
  if startswith b "/" then b
  else if String.eqb a EmptyString || endswith a "/" then a +:+ b
  else a +:+ "/" +:+ b.

(** ** Step 1: the metadata scan *)

Record recording := Recording {
  filename : string;
  filepath : string;
  emotion : string;
  gender : string;
  actor_id : Z
}.

Definition root_dirs : list string := ["input"; "audio_speech_actors_01-24"].

(** The dict literal [emotion_map], built by inserting its items in source
    order. *)
Definition emotion_map : gmap string string :=
  <["08" := "surprised"]> (<["07" := "disgust"]> (<["06" := "fearful"]>
  (<["05" := "angry"]> (<["04" := "sad"]> (<["03" := "happy"]>
  (<["02" := "calm"]> (<["01" := "neutral"]> ∅))))))).

(** [d.get(k, default)] *)
Definition dict_get (d : gmap string string) (k dflt : string) : string :=
  default dflt (d !! k).

(** What the scan takes from Python and from the file system:
    - [py_int s] is the builtin [int(s)]: the integer a decimal literal
      denotes, or the [ValueError] it raises;
    - [os_walk root] is [os.walk(root)]: the [(subdir, dirs, files)] triples
      of the tree below [root], none for a root that does not exist. *)
Class ScanEnv := {
  py_int : string -> result Z;
  os_walk : string -> list (string * list string * list string)
}.

Section Scan.
Context {env : ScanEnv}.

(** The body of the innermost loop, for one [file] of [subdir]. *)
Definition scan_file (subdir file : string) (metadata : list recording)
  : result (list recording) :=
  if endswith file ".wav" then
    let parts := split "-"%char file in
    if negb (length parts =? 7)%nat then Ok metadata
    else
      emotion_id <- index parts 2 ;;
      last_part <- index parts 6 ;;
      stem <- index (split "."%char last_part) 0 ;;
      actor_id <- py_int stem ;;
      let gender := if actor_id mod 2 =? 0 then "female" else "male" in
      Ok (metadata ++ [ {| filename := file;
                           filepath := os_path_join subdir file;
                           emotion := dict_get emotion_map emotion_id "unknown";
                           gender := gender;
                           actor_id := actor_id |} ])
  else Ok metadata.

Definition scan_subdir (entry : string * list string * list string)
    (metadata : list recording) : result (list recording) :=
  let '(subdir, _, files) := entry in
  for_each (scan_file subdir) files metadata.

Definition scan_root (root : string) (metadata : list recording)
  : result (list recording) :=
  for_each scan_subdir (os_walk root) metadata.

(** The whole first cell: the table [df] holds the records in the order
    they were appended. *)
Definition scan (roots : list string) : result (list recording) :=
  for_each scan_root roots [].

Definition df : result (list recording) := scan root_dirs.
End Scan.

(** *** An executable [int] for ASCII literals

    What [int] of CPython 3.10 does on text of ASCII characters: the white
    space of C (tab, line feed, vertical tab, form feed, carriage return and
    space) is skipped on both sides, one sign is allowed, then come decimal
    digits with single underscores between them, and a literal of more than
    4300 digits is refused.  The message shows the first 200 characters of
    the [repr] of the text.  Text with a character outside ASCII is beyond
    this definition: there [int] also reads the other decimal digits and the
    other white space of Unicode. *)

Definition is_py_space (c : ascii) : bool :=
  let n := N_of_ascii c in
  ((9 <=? n) && (n <=? 13) || (n =? 32))%N.

Definition digit_value (c : ascii) : option Z :=
  let n := Z.of_N (N_of_ascii c) in
  if (48 <=? n) && (n <=? 57) then Some (n - 48) else None.

Fixpoint lstrip (s : string) : string :=
  match s with
  | String c s' => if is_py_space c then lstrip s' else s
  | EmptyString => EmptyString
  end.

Definition strip (s : string) : string :=
  String.rev (lstrip (String.rev (lstrip s))).

Definition backslash : ascii := "092"%char.
Definition single_quote : ascii := "039"%char.
Definition double_quote : ascii := "034"%char.

Fixpoint has_char (c : ascii) (s : string) : bool :=
  match s with
  | EmptyString => false
  | String a s' => Ascii.eqb a c || has_char c s'
  end.

Definition hex_digit (n : N) : ascii :=
  ascii_of_N (if (n <? 10)%N then 48 + n else 87 + n)%N.

(** The characters of a [repr] between its quotes: the quote in use and the
    backslash are escaped, and so are the control characters. *)
Fixpoint repr_chars (quote : ascii) (s : string) : string :=
  match s with
  | EmptyString => EmptyString
  | String c s' =>
      let n := N_of_ascii c in
      (if Ascii.eqb c quote || Ascii.eqb c backslash
       then String backslash (String c EmptyString)
       else if (n =? 9)%N then String backslash "t"
       else if (n =? 10)%N then String backslash "n"
       else if (n =? 13)%N then String backslash "r"
       else if (n <? 32)%N || (n =? 127)%N
       then String backslash
              (String "x" (String (hex_digit (n / 16))
                             (String (hex_digit (n mod 16)) EmptyString)))
       else String c EmptyString) +:+ repr_chars quote s'
  end.

(** Single quotes, unless the text has a single quote and no double one. *)
Definition py_repr (s : string) : string :=
  let quote :=
    if has_char single_quote s && negb (has_char double_quote s)
    then double_quote else single_quote in
  String quote (repr_chars quote s) +:+ String quote EmptyString.

(** The digits at the head of [s]: their value on top of [acc], their
    number on top of [digits], and what follows them.  [prev_underscore]
    tells whether the previous character was an underscore: a second one
    may not follow, and the digits may not end there. *)
Fixpoint scan_digits (acc : Z) (digits : N) (prev_underscore : bool) (s : string)
  : option (Z * N * string) :=
  match s with
  | EmptyString =>
      if prev_underscore then None else Some (acc, digits, EmptyString)
  | String c s' =>
      match digit_value c with
      | Some d => scan_digits (10 * acc + d) (digits + 1) false s'
      | None =>
          if Ascii.eqb c "_" then
            if prev_underscore then None else scan_digits acc digits true s'
          else if prev_underscore then None else Some (acc, digits, s)
      end
  end.

Definition max_str_digits : N := 4300.

Definition invalid_literal (s : string) : result Z :=
  Raise (ValueError ("invalid literal for int() with base 10: " +:+
                     String.substring 0 200 (py_repr s))).

(** The number written by the digits [ds] of the literal [s]. *)
Definition int_digits (s ds : string) : result Z :=
  match ds with
  | String "_" _ => invalid_literal s
  | _ =>
      match scan_digits 0 0 false ds with
      | None => invalid_literal s
      | Some (n, digits, rest) =>
          if (max_str_digits <? digits)%N then
            Raise (ValueError
              ("Exceeds the limit (4300 digits) for integer string conversion: value has " +:+
               pretty digits +:+
               " digits; use sys.set_int_max_str_digits() to increase the limit"))
          else if (digits =? 0)%N then invalid_literal s
          else match rest with
               | EmptyString => Ok n
               | _ => invalid_literal s
               end
      end
  end.

Definition int_ascii (s : string) : result Z :=
  match strip s with
  | String "+" ds => int_digits s ds
  | String "-" ds => n <- int_digits s ds ;; Ok (- n)
  | ds => int_digits s ds
  end.

(** ** Arrays of single-precision numbers *)

Definition float32 : Type := spec_float.
Definition f32_zero : float32 := S754_zero false.
Definition f32_one : float32 := Eval vm_compute in SFone 24 128.
Definition f32_sub : float32 -> float32 -> float32 := SFsub 24 128.
Definition f32_div : float32 -> float32 -> float32 := SFdiv 24 128.

Definition is_nan (x : float32) : bool :=
  match x with S754_nan => true | _ => false end.

(** Neither an infinity nor a NaN. *)
Definition is_finite (x : float32) : bool :=
  match x with S754_zero _ | S754_finite _ _ _ => true | _ => false end.

(** A 2-dimensional array: [shape] is [(shape0, shape1)], [rows] its rows. *)
Record ndarray2 := Array2 {
  shape0 : nat;
  shape1 : nat;
  rows : list (list float32)
}.

Definition wf2 (m : ndarray2) : Prop :=
  length (rows m) = shape0 m /\ Forall (fun r => length r = shape1 m) (rows m).

(** A 3-dimensional array of shape [(length a3_data, a3_dim1, a3_dim2)]. *)
Record ndarray3 := Array3 {
  a3_dim1 : nat;
  a3_dim2 : nat;
  a3_data : list (list (list float32))
}.

Definition wf3 (X : ndarray3) : Prop :=
  Forall (fun m => length m = a3_dim1 X /\
                   Forall (fun r => length r = a3_dim2 X) m) (a3_data X).

(** A 4-dimensional array of shape
    [(length a4_data, a4_dim1, a4_dim2, a4_dim3)]. *)
Record ndarray4 := Array4 {
  a4_dim1 : nat;
  a4_dim2 : nat;
  a4_dim3 : nat;
  a4_data : list (list (list (list float32)))
}.

Definition shape3 (X : ndarray3) : nat * nat * nat :=
  (length (a3_data X), a3_dim1 X, a3_dim2 X).

Definition shape4 (X : ndarray4) : nat * nat * nat * nat :=
  (length (a4_data X), a4_dim1 X, a4_dim2 X, a4_dim3 X).

Definition wf4 (X : ndarray4) : Prop :=
  Forall (fun m => length m = a4_dim1 X /\
    Forall (fun r => length r = a4_dim2 X /\
      Forall (fun c => length c = a4_dim3 X) r) m) (a4_data X).

(** [X[n, i, j]] and [X[n, i, j, k]], absent out of range. *)
Definition get3 (X : ndarray3) (n i j : nat) : option float32 :=
  m ← a3_data X !! n; r ← m !! i; r !! j.

Definition get4 (X : ndarray4) (n i j k : nat) : option float32 :=
  m ← a4_data X !! n; r ← m !! i; c ← r !! j; c !! k.

(** [np.pad(m, pad_width=((0, 0), (0, pad_width)), mode='constant')]: the
    constant is the default 0. *)
Definition np_pad_right (m : ndarray2) (pad_width : nat) : ndarray2 :=
  {| shape0 := shape0 m;
     shape1 := shape1 m + pad_width;
     rows := map (fun r => r ++ replicate pad_width f32_zero) (rows m) |}.

(** [m[:, :n]] *)
Definition slice_cols (m : ndarray2) (n : nat) : ndarray2 :=
  {| shape0 := shape0 m;
     shape1 := Nat.min (shape1 m) n;
     rows := map (take n) (rows m) |}.

(** ** Step 2: [extract_mfcc] and the dataset loop *)

Definition default_n_mfcc : nat := 40.
Definition default_max_pad_len : nat := 174.

(** The audio library:
    - [Audio] is the type of the decoded samples of a recording;
    - [librosa_load filepath] is [librosa.load(filepath, sr=None)]: the
      samples and the native rate;
    - [librosa_mfcc audio sr n_mfcc] is
      [librosa.feature.mfcc(y=audio, sr=sr, n_mfcc=n_mfcc)]. *)
Class Librosa := {
  Audio : Type;
  librosa_load : string -> result (Audio * Z);
  librosa_mfcc : Audio -> Z -> nat -> result ndarray2
}.

Section Extraction.
Context {lib : Librosa}.

(** The body of the [try] block. *)
Definition extract_mfcc_body (filepath : string) (n_mfcc max_pad_len : nat)
  : result ndarray2 :=
  loaded <- librosa_load filepath ;;
  let '(audio, sr) := loaded in
  mfcc <- librosa_mfcc audio sr n_mfcc ;;
  if (shape1 mfcc <? max_pad_len)%nat then
    let pad_width := (max_pad_len - shape1 mfcc)%nat in
    Ok (np_pad_right mfcc pad_width)
  else
    Ok (slice_cols mfcc max_pad_len).

(** The value returned (or the exception that escapes) and the lines
    printed.  [except Exception] handles the instances of [Exception]
    only. *)
Definition extract_mfcc (filepath : string) (n_mfcc max_pad_len : nat)
  : result (option ndarray2) * list string :=
  match extract_mfcc_body filepath n_mfcc max_pad_len with
  | Ok mfcc => (Ok (Some mfcc), [])
  | Raise e =>
      if exn_is_Exception e then
        (Ok None, ["Error processing " +:+ filepath +:+ ": " +:+ exn_str e])
      else (Raise e, [])
  end.

(** The [for] loop over the rows of the table, with the lists [X] and [y]
    and the lines printed so far. *)
Fixpoint prepare_loop (table : list recording)
    (X : list ndarray2) (y : list string) (out : list string)
  : result (list ndarray2 * list string) * list string :=
  match table with
  | [] => (Ok (X, y), out)
  | row :: table' =>
      let '(r, printed) :=
        extract_mfcc (filepath row) default_n_mfcc default_max_pad_len in
      match r with
      | Raise e => (Raise e, out ++ printed)
      | Ok (Some mfcc) =>
          prepare_loop table' (X ++ [mfcc]) (y ++ [emotion row]) (out ++ printed)
      | Ok None => prepare_loop table' X y (out ++ printed)
      end
  end.

(** The last cell: what is saved as [X_mfcc.npy] and [y_labels.npy] (the
    matrices stacked along a new first axis, and their labels) and the
    lines printed. *)
Definition prepare_data (table : list recording)
  : result (list ndarray2 * list string) * list string :=
  match prepare_loop table [] [] ["Extracting MFCC features..."] with
  | (Ok saved, out) =>
      (Ok saved,
       out ++ ["✅ MFCC features and labels saved as 'X_mfcc.npy' and 'y_labels.npy'"])
  | (Raise e, out) => (Raise e, out)
  end.
(** The matrix a row of the table yields, if its extraction succeeds. *)
Definition extracted (row : recording) : option ndarray2 :=
  match fst (extract_mfcc (filepath row) default_n_mfcc default_max_pad_len) with
  | Ok (Some mfcc) => Some mfcc
  | _ => None
  end.

(** The rows of the table whose extraction succeeds, in the order of the
    table. *)
Definition kept_rows (table : list recording) : list recording :=
  filter (fun row => is_Some (extracted row)) table.

(** The lines one call of [extract_mfcc] prints for a row. *)
Definition diagnostics (row : recording) : list string :=
  snd (extract_mfcc (filepath row) default_n_mfcc default_max_pad_len).

(** A failure of the decoding or of the coefficient computation. *)
Definition fails_with (filepath : string) (n_mfcc : nat) (e : exn) : Prop :=
  librosa_load filepath = Raise e \/
  exists audio sr, librosa_load filepath = Ok (audio, sr) /\
                   librosa_mfcc audio sr n_mfcc = Raise e.
End Extraction.

(** ** The training notebook *)

(** *** Label encoding *)

(** [ar[mask]] with [mask = ar[1:] != ar[:-1]] (and the first item kept):
    of every run of equal neighbours one item stays. *)
Fixpoint drop_repeats (ar : list string) : list string :=
  match ar with
  | [] => []
  | a :: ar' =>
      match ar' with
      | b :: _ => if String.eqb a b then drop_repeats ar' else a :: drop_repeats ar'
      | [] => [a]
      end
  end.

(** [np.unique(ar)]: sort, then keep one item of every run. *)
Definition np_unique (ar : list string) : list string :=
  drop_repeats (merge_sort String.le ar).

(** The place of [s] in [classes] (the length of [classes] if it is not
    there). *)
Fixpoint position (s : string) (classes : list string) : nat :=
  match classes with
  | [] => 0
  | c :: classes' => if String.eqb c s then 0 else S (position s classes')
  end.

Record LabelEncoder := { classes_ : list string }.

(** [le.fit_transform(y)]: the fitted encoder and the index of every label
    in [classes_]. *)
Definition fit_transform (y : list string) : LabelEncoder * list nat :=
  let classes := np_unique y in
  ({| classes_ := classes |}, map (fun s => position s classes) y).

(** [to_categorical(y)] with [num_classes] left out: [np.max(y) + 1] columns,
    and [np.max] raises on an empty array. *)
Definition to_categorical (y : list nat) : result (list (list float32)) :=
  match y with
  | [] => Raise (ValueError
      "zero-size array to reduction operation maximum which has no identity")
  | _ :: _ =>
      let num_classes := (max_list y + 1)%nat in
      Ok (map (fun k => <[k := f32_one]> (replicate num_classes f32_zero)) y)
  end.

(** *** Index of the largest item *)

(** The loop of [np.argmax] on floats: [mp] is the running maximum, [best]
    its index, [i] the index of the head of [rest].  An item replaces the
    maximum unless it is [<=] it, and a NaN ends the loop. *)
Fixpoint argmax_loop (mp : float32) (best i : nat) (rest : list float32) : nat :=
  match rest with
  | [] => best
  | x :: rest' =>
      if negb (SFleb x mp) then
        if is_nan x then i else argmax_loop x i (S i) rest'
      else argmax_loop mp best (S i) rest'
  end.

Definition np_argmax (row : list float32) : result nat :=
  match row with
  | [] => Raise (ValueError "attempt to get argmax of an empty sequence")
  | x :: rest => Ok (if is_nan x then 0%nat else argmax_loop x 0 1 rest)
  end.

Fixpoint mapM {A B} (f : A -> result B) (l : list A) : result (list B) :=
  match l with
  | [] => Ok []
  | a :: l' => b <- f a ;; bs <- mapM f l' ;; Ok (b :: bs)
  end.

(** [np.argmax(m, axis=1)] *)
Definition np_argmax_axis1 (m : list (list float32)) : result (list nat) :=
  mapM np_argmax m.

(** [classes_[k]] for every index: the class names of a vector of indices. *)
Definition class_names (le : LabelEncoder) (ks : list nat) : result (list string) :=
  mapM (index (classes_ le)) ks.

(** *** Normalisation *)

(** The items [X[:, i, j]] along the sample axis. *)
Definition column (X : ndarray3) (i j : nat) : list float32 :=
  map (fun m => default S754_nan (r ← m !! i; r !! j)) (a3_data X).

(** A reduction along axis 0: item [(i, j)] of the result reduces
    [X[:, i, j]]. *)
Definition reduce_axis0 (f : list float32 -> float32) (X : ndarray3) : ndarray2 :=
  {| shape0 := a3_dim1 X;
     shape1 := a3_dim2 X;
     rows := map (fun i => map (fun j => f (column X i j)) (seq 0 (a3_dim2 X)))
                 (seq 0 (a3_dim1 X)) |}.

(** [X op M] for [X] of shape [(N, d1, d2)] and [M] of shape [(d1, d2)]: [M]
    is broadcast along the first axis. *)
Definition broadcast_op (op : float32 -> float32 -> float32)
    (X : ndarray3) (M : ndarray2) : ndarray3 :=
  {| a3_dim1 := a3_dim1 X;
     a3_dim2 := a3_dim2 X;
     a3_data := map (fun m => zip_with (zip_with op) m (rows M)) (a3_data X) |}.

(** [X[..., np.newaxis]] *)
Definition newaxis (X : ndarray3) : ndarray4 :=
  {| a4_dim1 := a3_dim1 X;
     a4_dim2 := a3_dim2 X;
     a4_dim3 := 1;
     a4_data := map (map (map (fun x => [x]))) (a3_data X) |}.

(** What [load_data] takes from NumPy:
    - [np_mean1] and [np_std1] are [np.mean] and [np.std] of the items along
      the sample axis at one position (the order in which NumPy adds them up
      is its own);
    - [np_load_features] and [np_load_labels] are [np.load] of the feature
      file and of the label file. *)
Class Numpy := {
  np_mean1 : list float32 -> float32;
  np_std1 : list float32 -> float32;
  np_load_features : string -> result ndarray3;
  np_load_labels : string -> result (list string)
}.

Section Training.
Context {np : Numpy}.

Definition np_mean_axis0 : ndarray3 -> ndarray2 := reduce_axis0 np_mean1.
Definition np_std_axis0 : ndarray3 -> ndarray2 := reduce_axis0 np_std1.

(** [(X - np.mean(X, axis=0)) / np.std(X, axis=0)] *)
Definition normalize (X : ndarray3) : ndarray3 :=
  broadcast_op f32_div (broadcast_op f32_sub X (np_mean_axis0 X))
               (np_std_axis0 X).

Definition load_data (x_path y_path : string)
  : result (ndarray4 * list (list float32) * LabelEncoder) :=
  X <- np_load_features x_path ;;
  y <- np_load_labels y_path ;;
  let X := normalize X in
  let X := newaxis X in
  let '(le, y_encoded) := fit_transform y in
  y_cat <- to_categorical y_encoded ;;
  Ok (X, y_cat, le).
End Training.

(** *** The network *)

Inductive activation := relu | softmax.

Inductive layer :=
| Conv2D (filters : nat) (kernel_size : nat * nat) (act : activation)
         (input_shape : option (nat * nat * nat))
| MaxPooling2D (pool_size : nat * nat)
| Dropout (rate : Q)
| Flatten
| Dense (units : nat) (act : activation).

Record model := Model {
  layers : list layer;
  optimizer : string;
  loss : string;
  metrics : list string
}.

Definition default_input_shape : nat * nat * nat := (40, 174, 1)%nat.
Definition default_num_classes : nat := 8.

Definition build_model (input_shape : nat * nat * nat) (num_classes : nat) : model :=
  {| layers :=
       [ Conv2D 32 (3, 3)%nat relu (Some input_shape);
         MaxPooling2D (2, 2)%nat;
         Dropout (3 # 10);
         Conv2D 64 (3, 3)%nat relu None;
         MaxPooling2D (2, 2)%nat;
         Dropout (3 # 10);
         Flatten;
         Dense 128 relu;
         Dropout (3 # 10);
         Dense num_classes softmax ];
     optimizer := "adam";
     loss := "categorical_crossentropy";
     metrics := ["accuracy"] |}.

(** The number of units of the last layer: the width of the model's output. *)
Definition output_units (m : model) : option nat :=
  match last (layers m) with
  | Some (Dense units _) => Some units
  | _ => None
  end.

(** [model = build_model()] in [main]: both arguments are left to their
    defaults, whatever [load_data] returned. *)
Definition main_model (loaded : ndarray4 * list (list float32) * LabelEncoder)
  : model :=
  build_model default_input_shape default_num_classes.

(** ** The emotion code table of the data model

    The table as the specification lists it, kept apart from [emotion_map]
    so that the two can be compared. *)

Definition code_table : list (string * string) :=
  [ ("01", "neutral"); ("02", "calm"); ("03", "happy"); ("04", "sad");
    ("05", "angry"); ("06", "fearful"); ("07", "disgust"); ("08", "surprised") ].

(** The label of a code: the one the table gives, ["unknown"] for a code
    outside the table. *)
Definition table_label (code : string) : string :=
  match List.find (fun entry => String.eqb (fst entry) code) code_table with
  | Some entry => snd entry
  | None => "unknown"
  end.

(** A name the scan records: it ends in [.wav] and has seven parts. *)
Definition seven_part_wav (file : string) : bool :=
  endswith file ".wav" && (length (split "-"%char file) =? 7)%nat.

(** The tree [os.walk] reports with the names the scan skips left out. *)
Definition recorded_only (env : ScanEnv) : ScanEnv :=
  {| py_int := @py_int env;
     os_walk := fun root =>
       map (fun entry =>
              (fst (fst entry), snd (fst entry), filter seven_part_wav (snd entry)))
           (@os_walk env root) |}.

(** What a row of the table says about the name it was built from. *)
Definition row_matches_name {env : ScanEnv} (r : recording) : Prop :=
  seven_part_wav (filename r) = true /\
  exists code last stem,
    split "-"%char (filename r) !! 2%nat = Some code /\
    split "-"%char (filename r) !! 6%nat = Some last /\
    split "."%char last !! 0%nat = Some stem /\
    py_int stem = Ok (actor_id r) /\
    emotion r = table_label code /\
    gender r = (if Z.even (actor_id r) then "female" else "male").

(** ** A small file tree and a small audio library, to run the code on *)

Definition demo_walk (root : string) : list (string * list string * list string) :=
  if String.eqb root "input" then
    [ ("input", ["Actor_12"], ["notes.txt"; "badname.wav"]);
      ("input/Actor_12", [],
       ["03-01-05-01-01-01-12.wav"; "03-01-09-01-01-01-11.wav"; "a-b.wav"]) ]
  else [].

Definition broken_walk (root : string) : list (string * list string * list string) :=
  if String.eqb root "input" then
    [ ("input", [], ["03-01-05-01-01-01-12.wav"; "01-01-03-01-01-01-abc.wav";
                     "03-01-02-01-01-01-03.wav"]) ]
  else [].

Definition malformed_walk (root : string) : list (string * list string * list string) :=
  if String.eqb root "input" then
    [ ("input", ["empty"], ["badname.wav"; "readme.md"; "1-2-3.wav"]);
      ("input/empty", [], []) ]
  else [].

Definition demo_env : ScanEnv := {| py_int := int_ascii; os_walk := demo_walk |}.
Definition broken_env : ScanEnv := {| py_int := int_ascii; os_walk := broken_walk |}.
Definition malformed_env : ScanEnv :=
  {| py_int := int_ascii; os_walk := malformed_walk |}.

(** A small audio library.  A recording is the list of its frames, and the
    coefficient matrix repeats the frames on each of its [n_mfcc] rows: enough
    to run the padding and the truncation. *)

Definition demo_frame (k : nat) : float32 :=
  S754_finite false (8388608 + Pos.of_succ_nat k) (-23).

Definition demo_load (filepath : string) : result (list float32 * Z) :=
  if String.eqb filepath "short.wav" then Ok (map demo_frame (seq 0 2), 48000)
  else if String.eqb filepath "long.wav" then Ok (map demo_frame (seq 0 176), 48000)
  else if String.eqb filepath "empty.wav" then Ok ([], 48000)
  else Raise (Exn "FileNotFoundError" true
                ("[Errno 2] No such file or directory: '" +:+ filepath +:+ "'")).

Definition demo_mfcc (audio : list float32) (sr : Z) (n_mfcc : nat) : result ndarray2 :=
  match audio with
  | [] => Raise (Exn "ParameterError" true "Audio buffer is empty")
  | _ :: _ => Ok {| shape0 := n_mfcc; shape1 := length audio;
                    rows := replicate n_mfcc audio |}
  end.

Definition demo_librosa : Librosa :=
  {| Audio := list float32; librosa_load := demo_load; librosa_mfcc := demo_mfcc |}.

Definition demo_table : list recording :=
  [ {| filename := "short.wav"; filepath := "short.wav"; emotion := "calm";
       gender := "male"; actor_id := 1 |};
    {| filename := "gone.wav"; filepath := "gone.wav"; emotion := "sad";
       gender := "female"; actor_id := 2 |};
    {| filename := "long.wav"; filepath := "long.wav"; emotion := "angry";
       gender := "male"; actor_id := 3 |};
    {| filename := "empty.wav"; filepath := "empty.wav"; emotion := "happy";
       gender := "female"; actor_id := 4 |} ].

(** Reductions that add the items up from left to right, to run the
    normalisation on: the mean, and the square root of the mean of the
    squared distances to it. *)

Definition f32_of_nat (n : nat) : float32 :=
  binary_normalize 24 128 (Z.of_nat n) 0 false.

Definition seq_sum (l : list float32) : float32 :=
  fold_left (SFadd 24 128) l f32_zero.

Definition seq_mean1 (l : list float32) : float32 :=
  f32_div (seq_sum l) (f32_of_nat (length l)).

Definition seq_std1 (l : list float32) : float32 :=
  let mean := seq_mean1 l in
  let sq := map (fun x => SFmul 24 128 (f32_sub x mean) (f32_sub x mean)) l in
  SFsqrt 24 128 (seq_mean1 sq).

Definition f32_three : float32 := Eval vm_compute in f32_of_nat 3.

(** Two samples of shape (1, 2): the first position is constant, the second
    is not. *)
Definition demo_features : ndarray3 :=
  {| a3_dim1 := 1; a3_dim2 := 2;
     a3_data := [ [[f32_one; f32_one]]; [[f32_one; f32_three]] ] |}.

Definition demo_load_features (x_path : string) : result ndarray3 :=
  if String.eqb x_path "X_mfcc.npy" then Ok demo_features
  else Raise (Exn "FileNotFoundError" true
                ("[Errno 2] No such file or directory: '" +:+ x_path +:+ "'")).

Definition demo_load_labels (y_path : string) : result (list string) :=
  if String.eqb y_path "y_labels.npy" then Ok ["sad"; "calm"]
  else Raise (Exn "FileNotFoundError" true
                ("[Errno 2] No such file or directory: '" +:+ y_path +:+ "'")).

Definition demo_numpy : Numpy :=
  {| np_mean1 := seq_mean1; np_std1 := seq_std1;
     np_load_features := demo_load_features; np_load_labels := demo_load_labels |}.

(** ** The scan as one pass over the files walked *)

(** The number of times [c] occurs in [s]. *)
Fixpoint count_char (c : ascii) (s : string) : nat :=
  match s with
  | EmptyString => 0
  | String a s' => if Ascii.eqb a c then S (count_char c s') else count_char c s'
  end.

(** What the code hands to [int] for a name: [parts[6].split(".")[0]]. *)
Definition actor_stem (file : string) : string :=
  default EmptyString
    (last_part ← split "-"%char file !! 6%nat; split "."%char last_part !! 0%nat).

(** [parts[2]] of a name. *)
Definition emotion_code (file : string) : string :=
  default EmptyString (split "-"%char file !! 2%nat).

Section Walk.
Context {env : ScanEnv}.

(** The files [os.walk] reports below the roots, each with its directory, in
    the order the three nested loops meet them. *)
Definition walked (roots : list string) : list (string * string) :=
  flat_map (fun root =>
    flat_map (fun entry => map (fun file => (fst (fst entry), file)) (snd entry))
             (os_walk root)) roots.

(** The names among them that the scan does not skip. *)
Definition recorded (roots : list string) : list (string * string) :=
  filter (fun df => seven_part_wav (snd df)) (walked roots).

(** The dict the loop body appends for a seven-part [.wav] name. *)
Definition record_of (df : string * string) : result recording :=
  let '(subdir, file) := df in
  actor_id <- py_int (actor_stem file) ;;
  Ok {| filename := file;
        filepath := os_path_join subdir file;
        emotion := dict_get emotion_map (emotion_code file) "unknown";
        gender := if actor_id mod 2 =? 0 then "female" else "male";
        actor_id := actor_id |}.
End Walk.

(** ** Items of a matrix *)

(** [m[i, j]], absent out of range. *)
Definition get2 (m : ndarray2) (i j : nat) : option float32 :=
  r ← rows m !! i; r !! j.

(** ** An audio library that is interrupted on one file *)

Definition interrupting_load (filepath : string) : result (list float32 * Z) :=
  if String.eqb filepath "interrupted.wav"
  then Raise (Exn "KeyboardInterrupt" false EmptyString)
  else demo_load filepath.

Definition interrupting_librosa : Librosa :=
  {| Audio := list float32; librosa_load := interrupting_load;
     librosa_mfcc := demo_mfcc |}.

Definition interrupted_row : recording :=
  {| filename := "interrupted.wav"; filepath := "interrupted.wav";
     emotion := "sad"; gender := "female"; actor_id := 2 |}.

(** ** [evaluate_model] *)

(** [unique_labels(y_true, y_pred)]: the distinct indices that occur in
    either vector, sorted. *)
Definition unique_labels (y_true y_pred : list nat) : list nat :=
  merge_sort Nat.le (remove_dups (y_true ++ y_pred)).

(** The number of samples with true index [t] and predicted index [p]. *)
Definition count_pair (t p : nat) (pairs : list (nat * nat)) : nat :=
  length (filter (fun tp => tp = (t, p)) pairs).

(** [confusion_matrix(y_true, y_pred)] with [labels] left out: rows are true
    indices, columns predicted ones, both over [unique_labels]. *)
Definition confusion_matrix (y_true y_pred : list nat) : result (list (list nat)) :=
  if negb (length y_true =? length y_pred)%nat then
    Raise (ValueError
      ("Found input variables with inconsistent numbers of samples: [" +:+
       pretty (length y_true) +:+ ", " +:+ pretty (length y_pred) +:+ "]"))
  else
    let labels := unique_labels y_true y_pred in
    let pairs := zip y_true y_pred in
    Ok (map (fun t => map (fun p => count_pair t p pairs) labels) labels).

(** The check [classification_report] makes on [target_names] when [labels]
    is left out. *)
Definition check_target_names (y_true y_pred : list nat) (target_names : list string)
  : result unit :=
  let labels := unique_labels y_true y_pred in
  if negb (length labels =? length target_names)%nat then
    Raise (ValueError
      ("Number of classes, " +:+ pretty (length labels) +:+
       ", does not match size of target_names, " +:+
       pretty (length target_names) +:+ ". Try specifying the labels parameter"))
  else Ok tt.

(** What [evaluate_model] shows: a heat map of a matrix with its tick
    labels, or a printed text. *)
Inductive shown :=
| Heatmap (cm : list (list nat)) (xticklabels yticklabels : list string)
| Printed (text : string).

(** [sns.heatmap(cm, annot=True, ..., xticklabels=labels, yticklabels=labels)]
    and [plt.show()].  The colours range from the smallest to the largest
    count of the matrix, which an empty matrix does not have; the ticks are
    as many as their labels, whatever the size of the matrix. *)
Definition sns_heatmap (cm : list (list nat)) (xticklabels yticklabels : list string)
  : result shown :=
  match cm with
  | [] => Raise (ValueError
            "zero-size array to reduction operation fmin which has no identity")
  | _ :: _ => Ok (Heatmap cm xticklabels yticklabels)
  end.

(** What [evaluate_model] takes from the network and from scikit-learn:
    - [model_predict model X] is [model.predict(X)], one row of class scores
      per sample, or the exception of the network;
    - [report_text y_true y_pred target_names] is the text of
      [classification_report] once its arguments are accepted. *)
Class Evaluation := {
  Network : Type;
  model_predict : Network -> ndarray4 -> result (list (list float32));
  report_text : list nat -> list nat -> list string -> string
}.

Section Evaluate.
Context {ev : Evaluation}.

(** [classification_report(y_true, y_pred, target_names=labels)] *)
Definition classification_report (y_true y_pred : list nat) (target_names : list string)
  : result string :=
  _ <- check_target_names y_true y_pred target_names ;;
  Ok (report_text y_true y_pred target_names).

(** The value returned (or the exception) and what was shown up to there. *)
Definition evaluate_model (model : Network) (X_test : ndarray4)
    (y_test : list (list float32)) (label_encoder : LabelEncoder)
  : result unit * list shown :=
  match model_predict model X_test with
  | Raise e => (Raise e, [])
  | Ok y_pred =>
      match np_argmax_axis1 y_pred with
      | Raise e => (Raise e, [])
      | Ok y_pred_classes =>
          match np_argmax_axis1 y_test with
          | Raise e => (Raise e, [])
          | Ok y_true_classes =>
              let labels := classes_ label_encoder in
              match confusion_matrix y_true_classes y_pred_classes with
              | Raise e => (Raise e, [])
              | Ok cm =>
                  match sns_heatmap cm labels labels with
                  | Raise e => (Raise e, [])
                  | Ok figure =>
                      let shown1 :=
                        [figure;
                         Printed ("Classification Report:" +:+ String "010" EmptyString)] in
                      match classification_report y_true_classes y_pred_classes labels with
                      | Raise e => (Raise e, shown1)
                      | Ok report => (Ok tt, shown1 ++ [Printed report])
                      end
                  end
              end
          end
      end
  end.
End Evaluate.

(** The number of times [t] occurs in a vector of indices. *)
Definition count_of (t : nat) (ks : list nat) : nat :=
  length (filter (fun k => k = t) ks).

(** The diagonal of a matrix: item [i] of row [i]. *)
Definition diagonal (cm : list (list nat)) : list nat :=
  imap (fun i row => default 0%nat (row !! i)) cm.

(** ** The shapes of the network *)



(** ** A network that returns stored scores, to run [evaluate_model] on *)

Definition demo_evaluation : Evaluation :=
  {| Network := list (list float32);
     model_predict := fun scores _ => Ok scores;
     report_text := fun _ _ _ => "precision recall f1-score support" |}.

Definition no_samples : ndarray4 :=
  {| a4_dim1 := 40; a4_dim2 := 174; a4_dim3 := 1; a4_data := [] |}.

Definition three_classes : LabelEncoder := {| classes_ := ["angry"; "calm"; "sad"] |}.

(** * Properties *)

(** ** Loops and results *)

Lemma for_each_app {A S} (body : A -> S -> result S) (l1 l2 : list A) (s : S) :
  for_each body (l1 ++ l2) s = (s' <- for_each body l1 s ;; for_each body l2 s').
Proof.
  revert s. induction l1 as [|a l1 IH]; intros s; simpl; [reflexivity|].
  destruct (body a s) as [s'|e]; simpl; [apply IH | reflexivity].
Qed.

(** A loop over items that all leave the state alone leaves it alone. *)
Lemma for_each_skip {A S} (body : A -> S -> result S) (l : list A) (s : S) :
  Forall (fun a => forall s', body a s' = Ok s') l -> for_each body l s = Ok s.
Proof.
  induction 1 as [|a l Ha _ IH]; simpl; [reflexivity|].
  rewrite Ha. simpl. exact IH.
Qed.

(** Two bodies that agree on every item of the list run the same loop. *)
Lemma for_each_ext {A S} (f g : A -> S -> result S) (l : list A) (s : S) :
  Forall (fun a => forall s', f a s' = g a s') l -> for_each f l s = for_each g l s.
Proof.
  intros H. revert s. induction H as [|a l Ha _ IH]; intros s; simpl; [reflexivity|].
  rewrite Ha. destruct (g a s); simpl; [apply IH | reflexivity].
Qed.

(** A loop that meets an item whose body raises in every state raises. *)
Lemma for_each_raises {A S} (body : A -> S -> result S) (l : list A) (a : A) (s : S) :
  a ∈ l -> (forall s', exists e, body a s' = Raise e) ->
  exists e, for_each body l s = Raise e.
Proof.
  intros Hin Hbad. revert s.
  induction Hin as [a l | a b l _ IH]; intros s; simpl.
  - destruct (Hbad s) as [e ->]. simpl. eauto.
  - destruct (body b s) as [s'|e]; simpl; eauto.
Qed.

(** ** String facts *)

Lemma split_nonempty (sep : ascii) (s : string) : split sep s <> [].
Proof.
  induction s as [|c s IH]; simpl; [discriminate|].
  destruct (Ascii.eqb c sep); [discriminate|].
  destruct (split sep s); [contradiction | discriminate].
Qed.

Lemma split_head (sep : ascii) (s : string) :
  exists stem, split sep s !! 0%nat = Some stem.
Proof.
  destruct (split sep s) as [|h t] eqn:E; [by apply split_nonempty in E | by exists h].
Qed.

(** [emotion_map.get(code, "unknown")] reads the code table. *)
Lemma emotion_map_table (code : string) :
  dict_get emotion_map code "unknown" = table_label code.
Proof.
  unfold dict_get, emotion_map, table_label, code_table.
  repeat (rewrite lookup_insert; case_decide; [subst code; reflexivity|]).
  rewrite lookup_empty. cbn [List.find fst snd].
  repeat match goal with
         | H : ?k <> code |- context [String.eqb ?k code] =>
             rewrite (proj2 (String.eqb_neq k code) H)
         end.
  reflexivity.
Qed.

(** Python's [n % 2 == 0] is evenness, also below zero. *)
Lemma mod2_even (n : Z) : (n mod 2 =? 0) = Z.even n.
Proof.
  rewrite Zeven_mod. reflexivity.
Qed.

Lemma for_each_map {A B S} (g : A -> B) (body : B -> S -> result S)
    (l : list A) (s : S) :
  for_each body (map g l) s = for_each (fun a => body (g a)) l s.
Proof.
  revert s. induction l as [|a l IH]; intros s; simpl; [reflexivity|].
  destruct (body (g a) s); simpl; [apply IH | reflexivity].
Qed.

(** A property of the state that every step keeps holds when the loop ends. *)
Lemma for_each_invariant {A S} (I : S -> Prop) (body : A -> S -> result S)
    (l : list A) (s s' : S) :
  (forall a t t', I t -> body a t = Ok t' -> I t') ->
  I s -> for_each body l s = Ok s' -> I s'.
Proof.
  intros Hstep. revert s. induction l as [|a l IH]; intros s Hs; simpl.
  - intros [= <-]. exact Hs.
  - destruct (body a s) as [t|e] eqn:E; simpl; [|discriminate].
    apply IH. eapply Hstep; eauto.
Qed.

(** ** The metadata scan *)

Section ScanFacts.
Context {env : ScanEnv}.

(** A name that is not a seven-part [.wav] name leaves the table alone. *)
Lemma scan_file_skips (subdir file : string) (metadata : list recording) :
  seven_part_wav file = false -> scan_file subdir file metadata = Ok metadata.
Proof.
  unfold seven_part_wav, scan_file. intros H.
  destruct (endswith file ".wav"); [|reflexivity].
  simpl in H. rewrite H. reflexivity.
Qed.

(** A seven-part [.wav] name either appends one row, read off the name, or
    raises what [int] raises. *)
Lemma scan_file_cases (subdir file : string) (metadata : list recording) :
  seven_part_wav file = true ->
  exists code last stem,
    split "-"%char file !! 2%nat = Some code /\
    split "-"%char file !! 6%nat = Some last /\
    split "."%char last !! 0%nat = Some stem /\
    scan_file subdir file metadata =
      (n <- py_int stem ;;
       Ok (metadata ++ [ {| filename := file;
                            filepath := os_path_join subdir file;
                            emotion := table_label code;
                            gender := if Z.even n then "female" else "male";
                            actor_id := n |} ])).
Proof.
  unfold seven_part_wav, scan_file. intros H.
  apply andb_true_iff in H as [Hwav Hlen]. rewrite Hwav, Hlen. simpl.
  apply Nat.eqb_eq in Hlen.
  destruct (lookup_lt_is_Some_2 (split "-"%char file) 2) as [code Hcode]; [lia|].
  destruct (lookup_lt_is_Some_2 (split "-"%char file) 6) as [lst Hlast]; [lia|].
  destruct (split_head "."%char lst) as [stem Hstem].
  exists code, lst, stem. repeat split; try assumption.
  unfold index. rewrite Hcode, Hlast. simpl. rewrite Hstem. simpl.
  destruct (py_int stem) as [n|e]; simpl; [|reflexivity].
  rewrite emotion_map_table, mod2_even. reflexivity.
Qed.

(** C1: for a file whose name ends in [.wav] and splits on ['-'] into
    exactly seven parts, with [code] the third part and [stem] the seventh
    part up to its first dot, once [int(stem)] gives [n] the loop body
    appends exactly one record; its emotion is the code table's label for
    [code] (["unknown"] for a code outside the table), its [actor_id] is
    [n], and its gender is ["female"] for an even [n] and ["male"] for an
    odd one. *)
Theorem scan_file_record (subdir file : string) (metadata : list recording)
    (code last stem : string) (n : Z) :
  endswith file ".wav" = true ->
  length (split "-"%char file) = 7%nat ->
  split "-"%char file !! 2%nat = Some code ->
  split "-"%char file !! 6%nat = Some last ->
  split "."%char last !! 0%nat = Some stem ->
  py_int stem = Ok n ->
  exists r,
    scan_file subdir file metadata = Ok (metadata ++ [r]) /\
    filename r = file /\
    emotion r = table_label code /\
    (forall l, In (code, l) code_table -> emotion r = l) /\
    ((forall l, ~ In (code, l) code_table) -> emotion r = "unknown") /\
    actor_id r = n /\
    (Z.even n = true -> gender r = "female") /\
    (Z.odd n = true -> gender r = "male").
Proof.
  intros Hwav Hlen Hcode Hlast Hstem Hint.
  destruct (scan_file_cases subdir file metadata) as (c & l & s & Hc & Hl & Hs & Hrun).
  { unfold seven_part_wav. rewrite Hwav. simpl. by apply Nat.eqb_eq. }
  rewrite Hcode in Hc. injection Hc as <-.
  rewrite Hlast in Hl. injection Hl as <-.
  rewrite Hstem in Hs. injection Hs as <-.
  rewrite Hint in Hrun. simpl in Hrun.
  eexists. split; [exact Hrun|]. simpl.
  repeat split.
  - intros lbl Hin. unfold code_table in Hin. simpl in Hin.
    repeat (destruct Hin as [[= <- <-]|Hin]; [reflexivity|]). contradiction.
  - intros Hout. unfold table_label.
    destruct (List.find _ code_table) as [[c lbl]|] eqn:E; [|reflexivity].
    apply List.find_some in E as [Hin Heq]. simpl in Heq.
    apply String.eqb_eq in Heq. subst c. by apply Hout in Hin.
  - intros ->. reflexivity.
  - intros Hodd. rewrite <- Z.negb_odd, Hodd. reflexivity.
Qed.
End ScanFacts.

Section ScanTable.
Context {env : ScanEnv}.

Lemma scan_file_keeps_rows (subdir file : string) (t t' : list recording) :
  Forall (row_matches_name) t ->
  scan_file subdir file t = Ok t' ->
  Forall (row_matches_name) t'.
Proof.
  intros Ht Hrun.
  destruct (seven_part_wav file) eqn:Hname.
  - destruct (scan_file_cases subdir file t Hname)
      as (code & lst & stem & Hc & Hl & Hs & Heq).
    rewrite Heq in Hrun.
    destruct (py_int stem) as [n|e] eqn:Hint; simpl in Hrun; [|discriminate].
    injection Hrun as <-.
    apply Forall_app. split; [exact Ht|].
    constructor; [|constructor].
    split; [exact Hname|]. exists code, lst, stem. simpl. auto 10.
  - rewrite scan_file_skips in Hrun by exact Hname.
    injection Hrun as <-. exact Ht.
Qed.

(** Every row of the table the scan builds was read off a seven-part
    [.wav] name, by the rule of the code table and of the actor's parity. *)
Theorem scan_rows_match_names (roots : list string) (table : list recording) :
  scan roots = Ok table ->
  Forall (row_matches_name) table.
Proof.
  unfold scan.
  apply (for_each_invariant (Forall (row_matches_name))); [|constructor].
  intros root t t' Ht. unfold scan_root.
  apply (for_each_invariant (Forall (row_matches_name))); [|exact Ht].
  intros [[subdir dirs] files] u u' Hu. unfold scan_subdir.
  apply (for_each_invariant (Forall (row_matches_name))); [|exact Hu].
  intros file v v'. apply scan_file_keeps_rows.
Qed.

Lemma scan_files_filter (subdir : string) (files : list string)
    (metadata : list recording) :
  for_each (scan_file subdir) files metadata =
  for_each (scan_file subdir) (filter seven_part_wav files) metadata.
Proof.
  revert metadata. induction files as [|file files IH]; intros metadata; [reflexivity|].
  rewrite filter_cons. destruct (decide (seven_part_wav file)) as [Hy|Hn].
  - simpl. destruct (scan_file subdir file metadata); simpl; [apply IH | reflexivity].
  - simpl. rewrite scan_file_skips; [simpl; apply IH|].
    by destruct (seven_part_wav file).
Qed.

(** C8: a name ending in [.wav] that does not split on ['-'] into exactly
    seven parts leaves the table as it is and raises nothing; the scan
    goes on as if such names (and the names not ending in [.wav]) were
    not there; and when no name under any root is a seven-part [.wav]
    name, in particular under empty or missing roots, the scan ends
    normally with the empty table. *)
Theorem scan_skips_malformed_names :
  (forall subdir file metadata,
     endswith file ".wav" = true ->
     length (split "-"%char file) <> 7%nat ->
     scan_file subdir file metadata = Ok metadata) /\
  (forall subdir before file after metadata,
     endswith file ".wav" = true ->
     length (split "-"%char file) <> 7%nat ->
     for_each (scan_file subdir) (before ++ file :: after) metadata =
     for_each (scan_file subdir) (before ++ after) metadata) /\
  (forall roots,
     scan roots = @scan (recorded_only _) roots) /\
  (forall roots,
     (forall root subdir dirs files file,
        root ∈ roots -> (subdir, dirs, files) ∈ os_walk root -> file ∈ files ->
        endswith file ".wav" = true -> length (split "-"%char file) <> 7%nat) ->
     scan roots = Ok []).
Proof.
  assert (Hskip : forall subdir file metadata,
     endswith file ".wav" = true ->
     length (split "-"%char file) <> 7%nat ->
     scan_file subdir file metadata = Ok metadata).
  { intros subdir file metadata Hwav Hlen. apply scan_file_skips.
    unfold seven_part_wav. rewrite Hwav. simpl. by apply Nat.eqb_neq. }
  split; [exact Hskip|]. split; [|split].
  - intros subdir before file after metadata Hwav Hlen.
    rewrite !for_each_app. destruct (for_each _ before metadata) as [t|e]; [|reflexivity].
    simpl. rewrite Hskip by assumption. reflexivity.
  - intros roots. unfold scan. apply for_each_ext.
    apply Forall_forall. intros root _ t. unfold scan_root.
    cbn [os_walk recorded_only]. rewrite for_each_map. apply for_each_ext.
    apply Forall_forall. intros [[subdir dirs] files] _ u. cbn [scan_subdir fst snd].
    change (@scan_file (recorded_only env) subdir) with (@scan_file env subdir).
    apply scan_files_filter.
  - intros roots Hall. unfold scan. apply for_each_skip.
    apply Forall_forall. intros root Hroot t. unfold scan_root.
    apply for_each_skip. apply Forall_forall.
    intros [[subdir dirs] files] Hentry u. simpl.
    apply for_each_skip. apply Forall_forall. intros file Hfile v.
    apply scan_file_skips. unfold seven_part_wav.
    destruct (endswith file ".wav") eqn:Hwav; [|reflexivity]. simpl.
    apply Nat.eqb_neq. eapply Hall; eauto.
Qed.

(** C10: a [.wav] name with exactly seven parts whose seventh part, up to
    its first dot, makes [int] raise makes the loop body raise the same
    exception: no row is appended and the name is not skipped.  Nothing
    handles it, so a scan that meets such a name under one of its roots
    ends with an exception and builds no table. *)
Theorem scan_aborts_on_bad_actor (roots : list string)
    (root subdir : string) (dirs files : list string)
    (file last stem : string) (e : exn) :
  root ∈ roots -> (subdir, dirs, files) ∈ os_walk root -> file ∈ files ->
  endswith file ".wav" = true ->
  length (split "-"%char file) = 7%nat ->
  split "-"%char file !! 6%nat = Some last ->
  split "."%char last !! 0%nat = Some stem ->
  py_int stem = Raise e ->
  (forall metadata, scan_file subdir file metadata = Raise e) /\
  (exists e', scan roots = Raise e').
Proof.
  intros Hroot Hentry Hfile Hwav Hlen Hlast Hstem Hint.
  assert (Hbody : forall metadata, scan_file subdir file metadata = Raise e).
  { intros metadata.
    destruct (scan_file_cases subdir file metadata)
      as (c & l & s & _ & Hl & Hs & Hrun).
    { unfold seven_part_wav. rewrite Hwav. simpl. by apply Nat.eqb_eq. }
    rewrite Hlast in Hl. injection Hl as <-.
    rewrite Hstem in Hs. injection Hs as <-.
    rewrite Hrun, Hint. reflexivity. }
  split; [exact Hbody|].
  unfold scan. eapply for_each_raises; [exact Hroot|].
  intros t. unfold scan_root. eapply for_each_raises; [exact Hentry|].
  intros u. simpl. eapply for_each_raises; [exact Hfile|].
  intros v. exists e. apply Hbody.
Qed.
End ScanTable.

(** *** The scan on concrete trees *)

Ltac elem_cases :=
  repeat match goal with
         | H : _ ∈ [] |- _ => by apply elem_of_nil in H
         | H : _ ∈ _ :: _ |- _ => apply elem_of_cons in H as [H|H]
         end.

Lemma scan_file_record_witness :
  exists r,
    @scan_file demo_env "input/Actor_12" "03-01-05-01-01-01-12.wav" [] = Ok ([] ++ [r]) /\
    filename r = "03-01-05-01-01-01-12.wav" /\
    emotion r = table_label "05" /\
    (forall l, In ("05", l) code_table -> emotion r = l) /\
    ((forall l, ~ In ("05", l) code_table) -> emotion r = "unknown") /\
    actor_id r = 12 /\
    (Z.even 12 = true -> gender r = "female") /\
    (Z.odd 12 = true -> gender r = "male").
Proof.
  apply (@scan_file_record demo_env "input/Actor_12" "03-01-05-01-01-01-12.wav" []
           "05" "12.wav" "12" 12); reflexivity.
Defined.

(** The specification's sample name: actor 12 is even, so the row says
    ["female"]. *)
Example scan_file_sample :
  @scan_file demo_env "input/Actor_12" "03-01-05-01-01-01-12.wav" [] =
  Ok [ {| filename := "03-01-05-01-01-01-12.wav";
          filepath := "input/Actor_12/03-01-05-01-01-01-12.wav";
          emotion := "angry"; gender := "female"; actor_id := 12 |} ].
Proof. reflexivity. Qed.

Example scan_file_unknown_code :
  @scan_file demo_env "input" "03-01-09-01-01-01-11.wav" [] =
  Ok [ {| filename := "03-01-09-01-01-01-11.wav";
          filepath := "input/03-01-09-01-01-01-11.wav";
          emotion := "unknown"; gender := "male"; actor_id := 11 |} ].
Proof. reflexivity. Qed.

Example scan_demo_tree :
  @scan demo_env root_dirs =
  Ok [ {| filename := "03-01-05-01-01-01-12.wav";
          filepath := "input/Actor_12/03-01-05-01-01-01-12.wav";
          emotion := "angry"; gender := "female"; actor_id := 12 |};
       {| filename := "03-01-09-01-01-01-11.wav";
          filepath := "input/Actor_12/03-01-09-01-01-01-11.wav";
          emotion := "unknown"; gender := "male"; actor_id := 11 |} ].
Proof. reflexivity. Qed.

Lemma scan_skips_malformed_names_witness :
  @scan_file malformed_env "input" "badname.wav" [] = Ok [] /\
  @scan malformed_env root_dirs = Ok [].
Proof.
  destruct (@scan_skips_malformed_names malformed_env) as (H1 & _ & _ & H4).
  split.
  - apply H1; [reflexivity | vm_compute; lia].
  - apply H4. intros root subdir dirs files file Hroot Hentry Hfile Hwav.
    unfold root_dirs in Hroot. elem_cases; subst root.
    + change (@os_walk malformed_env "input") with
        [ ("input", ["empty"], ["badname.wav"; "readme.md"; "1-2-3.wav"]);
          ("input/empty", @nil string, @nil string) ] in Hentry.
      elem_cases; injection Hentry as -> -> ->; elem_cases; subst file;
        solve [ vm_compute; lia | discriminate Hwav ].
    + change (@os_walk malformed_env "audio_speech_actors_01-24") with
        (@nil (string * list string * list string)) in Hentry.
      elem_cases.
Defined.

Lemma scan_aborts_on_bad_actor_witness :
  (forall metadata,
     @scan_file broken_env "input" "01-01-03-01-01-01-abc.wav" metadata =
     Raise (ValueError "invalid literal for int() with base 10: 'abc'")) /\
  (exists e', @scan broken_env root_dirs = Raise e').
Proof.
  apply (@scan_aborts_on_bad_actor broken_env root_dirs "input" "input" []
           ["03-01-05-01-01-01-12.wav"; "01-01-03-01-01-01-abc.wav";
            "03-01-02-01-01-01-03.wav"]
           "01-01-03-01-01-01-abc.wav" "abc.wav" "abc").
  - apply list_elem_of_here.
  - apply list_elem_of_here.
  - apply list_elem_of_further, list_elem_of_here.
  - reflexivity.
  - reflexivity.
  - reflexivity.
  - reflexivity.
  - reflexivity.
Defined.

Example scan_broken_tree :
  @scan broken_env root_dirs =
  Raise (ValueError "invalid literal for int() with base 10: 'abc'").
Proof. reflexivity. Qed.

(** ** Padding and truncating a matrix *)

Lemma np_pad_right_wf (m : ndarray2) (pad_width : nat) :
  wf2 m -> wf2 (np_pad_right m pad_width).
Proof.
  intros [Hrows Hcols]. split; simpl.
  - rewrite length_map. exact Hrows.
  - apply Forall_map. eapply Forall_impl; [exact Hcols|].
    intros r Hr. simpl. rewrite length_app, length_replicate, Hr. reflexivity.
Qed.

Lemma slice_cols_wf (m : ndarray2) (n : nat) : wf2 m -> wf2 (slice_cols m n).
Proof.
  intros [Hrows Hcols]. split; simpl.
  - rewrite length_map. exact Hrows.
  - apply Forall_map. eapply Forall_impl; [exact Hcols|].
    intros r Hr. simpl. rewrite length_take, Hr. lia.
Qed.

(** ** [extract_mfcc] *)

Section ExtractionFacts.
Context {lib : Librosa}.

(** What the audio library promises: the coefficient matrix is a
    rectangular array with one row per coefficient. *)
Hypothesis mfcc_shape : forall audio sr n_mfcc raw,
  librosa_mfcc audio sr n_mfcc = Ok raw -> wf2 raw /\ shape0 raw = n_mfcc.

(** What the audio library raises derives from [Exception]. *)
Hypothesis load_raises_Exception : forall filepath e,
  librosa_load filepath = Raise e -> exn_is_Exception e = true.
Hypothesis mfcc_raises_Exception : forall audio sr n_mfcc e,
  librosa_mfcc audio sr n_mfcc = Raise e -> exn_is_Exception e = true.


(** The [try] block ends normally exactly when both library calls do, with
    the matrix padded or cut to [max_pad_len] columns. *)
Lemma extract_mfcc_body_Ok (filepath : string) (n_mfcc max_pad_len : nat) (m : ndarray2) :
  extract_mfcc_body filepath n_mfcc max_pad_len = Ok m <->
  exists audio sr raw,
    librosa_load filepath = Ok (audio, sr) /\
    librosa_mfcc audio sr n_mfcc = Ok raw /\
    m = if (shape1 raw <? max_pad_len)%nat
        then np_pad_right raw (max_pad_len - shape1 raw)
        else slice_cols raw max_pad_len.
Proof.
  unfold extract_mfcc_body. split.
  - destruct (librosa_load filepath) as [[audio sr]|e]; simpl; [|discriminate].
    destruct (librosa_mfcc audio sr n_mfcc) as [raw|e] eqn:Hraw; simpl; [|discriminate].
    intros H. exists audio, sr, raw. split; [reflexivity|]. split; [exact Hraw|].
    destruct (shape1 raw <? max_pad_len)%nat; congruence.
  - intros (audio & sr & raw & -> & Hm & ->). simpl. rewrite Hm. simpl.
    destruct (shape1 raw <? max_pad_len)%nat; reflexivity.
Qed.

(** The [try] block raises exactly what a library call raises. *)
Lemma extract_mfcc_body_Raise (filepath : string) (n_mfcc max_pad_len : nat) (e : exn) :
  extract_mfcc_body filepath n_mfcc max_pad_len = Raise e <->
  fails_with filepath n_mfcc e.
Proof.
  unfold extract_mfcc_body, fails_with. split.
  - destruct (librosa_load filepath) as [[audio sr]|e']; simpl.
    + destruct (librosa_mfcc audio sr n_mfcc) as [raw|e''] eqn:E; simpl.
      * destruct (shape1 raw <? max_pad_len)%nat; discriminate.
      * intros [= ->]. right. eauto.
    + intros [= ->]. by left.
  - intros [->|(audio & sr & -> & Hm)]; simpl; [reflexivity|].
    rewrite Hm. reflexivity.
Qed.

Lemma fit_shape (raw : ndarray2) (n_mfcc max_pad_len : nat) :
  wf2 raw -> shape0 raw = n_mfcc ->
  let m := if (shape1 raw <? max_pad_len)%nat
           then np_pad_right raw (max_pad_len - shape1 raw)
           else slice_cols raw max_pad_len in
  wf2 m /\ shape0 m = n_mfcc /\ shape1 m = max_pad_len.
Proof.
  intros Hwf Hrows. simpl.
  destruct (Nat.ltb_spec (shape1 raw) max_pad_len) as [Hlt|Hge].
  - split; [by apply np_pad_right_wf|]. simpl. split; [exact Hrows | lia].
  - split; [by apply slice_cols_wf|]. simpl. split; [exact Hrows | lia].
Qed.

(** What the choice between padding and slicing does to the rows. *)
Lemma fit_rows (raw : ndarray2) (max_pad_len : nat) :
  wf2 raw ->
  let m := if (shape1 raw <? max_pad_len)%nat
           then np_pad_right raw (max_pad_len - shape1 raw)
           else slice_cols raw max_pad_len in
  (shape1 raw < max_pad_len ->
   rows m = map (fun r => r ++ replicate (max_pad_len - shape1 raw) f32_zero) (rows raw))%nat /\
  (max_pad_len < shape1 raw -> rows m = map (take max_pad_len) (rows raw))%nat /\
  (shape1 raw = max_pad_len -> rows m = rows raw)%nat.
Proof.
  intros Hwf. cbv zeta. repeat split.
  - intros Hlt. apply Nat.ltb_lt in Hlt. rewrite Hlt. reflexivity.
  - intros Hgt.
    assert (Hge : (shape1 raw <? max_pad_len)%nat = false) by (apply Nat.ltb_ge; lia).
    rewrite Hge. reflexivity.
  - intros Heq.
    assert (Hge : (shape1 raw <? max_pad_len)%nat = false) by (apply Nat.ltb_ge; lia).
    rewrite Hge. simpl.
    destruct Hwf as [_ Hall]. rewrite Heq in Hall.
    clear -Hall. induction Hall as [|r rs Hr _ IH]; simpl; [reflexivity|].
    rewrite IH. f_equal. apply take_ge. lia.
Qed.

(** C2: with the default sizes, a recording that the library loads and
    turns into coefficients makes [extract_mfcc] return, without printing, a
    matrix of shape exactly (40, 174), whatever the number of frames: each of
    its 40 rows is the row the library computed followed by zeros up to 174
    items when the recording has fewer than 174 frames, the first 174 items
    of that row when it has more, and the row itself at exactly 174.  Every
    call that returns a matrix is of this kind, so every matrix returned has
    shape (40, 174). *)
Theorem extract_mfcc_shape (filepath : string) :
  (forall (audio : Audio) (sr : Z) (raw : ndarray2),
     librosa_load filepath = Ok (audio, sr) ->
     librosa_mfcc audio sr default_n_mfcc = Ok raw ->
     exists m,
       extract_mfcc filepath default_n_mfcc default_max_pad_len = (Ok (Some m), []) /\
       (shape0 m, shape1 m) = (40, 174)%nat /\
       length (rows m) = 40%nat /\
       Forall (fun r => length r = 174%nat) (rows m) /\
       (shape1 raw < 174 ->
        rows m = map (fun r => r ++ replicate (174 - shape1 raw) f32_zero) (rows raw))%nat /\
       (174 < shape1 raw -> rows m = map (take 174) (rows raw))%nat /\
       (shape1 raw = 174 -> rows m = rows raw)%nat) /\
  (forall (m : ndarray2) (out : list string),
     extract_mfcc filepath default_n_mfcc default_max_pad_len = (Ok (Some m), out) ->
     out = [] /\
     (shape0 m, shape1 m) = (40, 174)%nat /\
     length (rows m) = 40%nat /\
     Forall (fun r => length r = 174%nat) (rows m) /\
     exists audio sr raw,
       librosa_load filepath = Ok (audio, sr) /\
       librosa_mfcc audio sr default_n_mfcc = Ok raw).
Proof.
  assert (Hfit : forall raw audio sr,
    librosa_mfcc audio sr default_n_mfcc = Ok raw ->
    let m := if (shape1 raw <? default_max_pad_len)%nat
             then np_pad_right raw (default_max_pad_len - shape1 raw)
             else slice_cols raw default_max_pad_len in
    (shape0 m, shape1 m) = (40, 174)%nat /\
    length (rows m) = 40%nat /\
    Forall (fun r => length r = 174%nat) (rows m) /\
    (shape1 raw < 174 ->
     rows m = map (fun r => r ++ replicate (174 - shape1 raw) f32_zero) (rows raw))%nat /\
    (174 < shape1 raw -> rows m = map (take 174) (rows raw))%nat /\
    (shape1 raw = 174 -> rows m = rows raw)%nat).
  { intros raw audio sr Hraw.
    destruct (mfcc_shape _ _ _ _ Hraw) as [Hwf Hrows].
    destruct (fit_shape raw default_n_mfcc default_max_pad_len Hwf Hrows)
      as ([Hlen Hcols] & H0 & H1).
    pose proof (fit_rows raw default_max_pad_len Hwf) as Hr.
    cbv zeta in *. rewrite H0, H1 in *.
    split; [reflexivity|]. split; [exact Hlen|]. split; [exact Hcols|].
    exact Hr. }
  split.
  - intros audio sr raw Hload Hraw.
    eexists. split; [|exact (Hfit raw audio sr Hraw)].
    unfold extract_mfcc.
    assert (Hbody : extract_mfcc_body filepath default_n_mfcc default_max_pad_len =
                    Ok (if (shape1 raw <? default_max_pad_len)%nat
                        then np_pad_right raw (default_max_pad_len - shape1 raw)
                        else slice_cols raw default_max_pad_len)).
    { apply extract_mfcc_body_Ok. exists audio, sr, raw. repeat split; assumption. }
    rewrite Hbody. reflexivity.
  - intros m out. unfold extract_mfcc.
    destruct (extract_mfcc_body filepath default_n_mfcc default_max_pad_len)
      as [m'|e] eqn:Hbody.
    + intros [= <- <-].
      apply extract_mfcc_body_Ok in Hbody as (audio & sr & raw & Hload & Hraw & ->).
      destruct (Hfit raw audio sr Hraw) as (H1 & H2 & H3 & _).
      split; [reflexivity|]. split; [exact H1|]. split; [exact H2|].
      split; [exact H3|]. exists audio, sr, raw. split; assumption.
    + destruct (exn_is_Exception e); discriminate.
Qed.

(** When both library calls succeed, so does [extract_mfcc], and it prints
    nothing. *)
Lemma extract_mfcc_succeeds (filepath : string) (n_mfcc max_pad_len : nat)
    (audio : Audio) (sr : Z) (raw : ndarray2) :
  librosa_load filepath = Ok (audio, sr) ->
  librosa_mfcc audio sr n_mfcc = Ok raw ->
  exists m, extract_mfcc filepath n_mfcc max_pad_len = (Ok (Some m), []).
Proof.
  intros Hload Hraw. unfold extract_mfcc.
  destruct (extract_mfcc_body filepath n_mfcc max_pad_len) as [m|e] eqn:Hbody; [eauto|].
  apply extract_mfcc_body_Raise in Hbody as [Hl|(a & s & Hl & Hm)]; congruence.
Qed.

(** A failure of a library call is handled: one line is printed and [None]
    is returned. *)
Lemma extract_mfcc_handles (filepath : string) (n_mfcc max_pad_len : nat) (e : exn) :
  fails_with filepath n_mfcc e ->
  extract_mfcc filepath n_mfcc max_pad_len =
  (Ok None, ["Error processing " +:+ filepath +:+ ": " +:+ exn_str e]).
Proof.
  intros Hfail. unfold extract_mfcc.
  assert (He : exn_is_Exception e = true).
  { destruct Hfail as [Hl|(a & s & _ & Hm)]; eauto. }
  apply (proj2 (extract_mfcc_body_Raise _ _ max_pad_len _)) in Hfail.
  rewrite Hfail, He. reflexivity.
Qed.

(** C3: whatever the file path, [extract_mfcc] returns and does not raise;
    and when the decoding or the coefficient computation fails with [e], the
    call returns [None] after printing one line that names the path and
    [str(e)]. *)
Theorem extract_mfcc_never_raises (filepath : string) (n_mfcc max_pad_len : nat) :
  (exists r out, extract_mfcc filepath n_mfcc max_pad_len = (Ok r, out)) /\
  (forall e, fails_with filepath n_mfcc e ->
     extract_mfcc filepath n_mfcc max_pad_len =
     (Ok None, ["Error processing " +:+ filepath +:+ ": " +:+ exn_str e])).
Proof.
  split; [|intros e; apply extract_mfcc_handles].
  destruct (extract_mfcc_body filepath n_mfcc max_pad_len) as [m|e] eqn:Hbody.
  - unfold extract_mfcc. rewrite Hbody. eauto.
  - apply extract_mfcc_body_Raise in Hbody.
    rewrite (extract_mfcc_handles _ _ max_pad_len e Hbody). eauto.
Qed.

(** The value of a call is a matrix or [None]. *)
Lemma extract_mfcc_value (filepath : string) (n_mfcc max_pad_len : nat) :
  exists r out, extract_mfcc filepath n_mfcc max_pad_len = (Ok r, out).
Proof.
  unfold extract_mfcc.
  destruct (extract_mfcc_body filepath n_mfcc max_pad_len) as [m|e] eqn:Hbody; [eauto|].
  apply extract_mfcc_body_Raise in Hbody.
  assert (He : exn_is_Exception e = true).
  { destruct Hbody as [Hl|(a & s & _ & Hm)]; eauto. }
  rewrite He. eauto.
Qed.

(** An exception that does not derive from [Exception] is not handled. *)
Lemma extract_mfcc_lets_through (filepath : string) (n_mfcc max_pad_len : nat) (e : exn) :
  extract_mfcc_body filepath n_mfcc max_pad_len = Raise e ->
  exn_is_Exception e = false ->
  extract_mfcc filepath n_mfcc max_pad_len = (Raise e, []).
Proof.
  intros Hbody He. unfold extract_mfcc. rewrite Hbody, He. reflexivity.
Qed.
End ExtractionFacts.

(** ** The dataset loop *)

Section DatasetFacts.
Context {lib : Librosa}.

Hypothesis load_raises_Exception : forall filepath e,
  librosa_load filepath = Raise e -> exn_is_Exception e = true.
Hypothesis mfcc_raises_Exception : forall audio sr n_mfcc e,
  librosa_mfcc audio sr n_mfcc = Raise e -> exn_is_Exception e = true.


Lemma kept_rows_matrices (table : list recording) :
  Some <$> omap extracted table = extracted <$> kept_rows table.
Proof.
  unfold kept_rows. induction table as [|row table IH]; [reflexivity|].
  rewrite filter_cons. simpl.
  destruct (extracted row) as [m|] eqn:E.
  - rewrite decide_True by eauto. simpl. rewrite E. f_equal. exact IH.
  - rewrite decide_False by (intros [? ?]; discriminate). exact IH.
Qed.

(** The loop appends, for every row in turn, the matrix and the label of
    the rows that yield a matrix, and the lines [extract_mfcc] prints. *)
Lemma prepare_loop_appends (table : list recording)
    (X : list ndarray2) (y out : list string) :
  prepare_loop table X y out =
  (Ok (X ++ omap extracted table, y ++ (emotion <$> kept_rows table)),
   out ++ concat (diagnostics <$> table)).
Proof.
  unfold kept_rows. revert X y out. induction table as [|row table IH]; intros X y out.
  - simpl. rewrite !app_nil_r. reflexivity.
  - rewrite filter_cons. simpl. unfold extracted, diagnostics.
    destruct (extract_mfcc_value
                load_raises_Exception mfcc_raises_Exception
                (filepath row) default_n_mfcc default_max_pad_len)
      as (r & printed & Hrun).
    rewrite Hrun. simpl. destruct r as [m|].
    + rewrite decide_True by eauto. rewrite IH. simpl.
      rewrite <- !app_assoc. reflexivity.
    + rewrite decide_False by (intros [? ?]; discriminate). rewrite IH.
      rewrite <- !app_assoc. reflexivity.
Qed.

(** C4: the last cell ends normally with a feature tensor [X] and a label
    vector [y] that both have as many rows as the table has rows whose
    extraction succeeded; those rows, in the order of the table, are
    [kept]: label [i] is the emotion of [kept[i]] and matrix [i] is the one
    extracted from [kept[i]].  The rows that yield nothing are left out of
    both, and nothing is printed about them beyond the lines of
    [extract_mfcc] itself, between the two messages of the cell. *)
Theorem prepare_data_rows (table : list recording) :
  exists X y out,
    prepare_data table = (Ok (X, y), out) /\
    length X = length (kept_rows table) /\
    length y = length (kept_rows table) /\
    kept_rows table `sublist_of` table /\
    (forall row, row ∈ kept_rows table <-> row ∈ table /\ is_Some (extracted row)) /\
    y = emotion <$> kept_rows table /\
    Some <$> X = extracted <$> kept_rows table /\
    (forall i row, kept_rows table !! i = Some row ->
       y !! i = Some (emotion row) /\ X !! i = extracted row) /\
    out = "Extracting MFCC features..." :: concat (diagnostics <$> table) ++
          ["✅ MFCC features and labels saved as 'X_mfcc.npy' and 'y_labels.npy'"].
Proof.
  unfold prepare_data. rewrite prepare_loop_appends. simpl.
  pose proof (kept_rows_matrices table) as HX.
  eexists _, _, _. split; [reflexivity|].
  assert (HlenX : length (omap extracted table) = length (kept_rows table)).
  { rewrite <- (length_fmap Some), HX, length_fmap. reflexivity. }
  split; [exact HlenX|]. split; [by rewrite length_fmap|].
  split; [apply sublist_filter|].
  split; [intros row; unfold kept_rows; rewrite list_elem_of_filter; tauto|].
  split; [reflexivity|]. split; [exact HX|]. split; [|reflexivity].
  intros i row Hrow. split.
  - rewrite list_lookup_fmap, Hrow. reflexivity.
  - assert (H : (Some <$> omap extracted table) !! i = Some (extracted row)).
    { rewrite HX, list_lookup_fmap, Hrow. reflexivity. }
    rewrite list_lookup_fmap in H.
    destruct (omap extracted table !! i) as [m|]; simpl in H; congruence.
Qed.
End DatasetFacts.

(** *** The extraction on a small library *)

Lemma demo_mfcc_shape (audio : list float32) (sr : Z) (n_mfcc : nat) (raw : ndarray2) :
  demo_mfcc audio sr n_mfcc = Ok raw -> wf2 raw /\ shape0 raw = n_mfcc.
Proof.
  destruct audio as [|x audio]; simpl; [discriminate|].
  intros [= <-]. repeat split; simpl.
  - apply length_replicate.
  - apply Forall_replicate. reflexivity.
Qed.

Lemma demo_load_raises (filepath : string) (e : exn) :
  demo_load filepath = Raise e -> exn_is_Exception e = true.
Proof.
  unfold demo_load.
  repeat (destruct (String.eqb filepath _); [discriminate|]).
  intros [= <-]. reflexivity.
Qed.

Lemma demo_mfcc_raises (audio : list float32) (sr : Z) (n_mfcc : nat) (e : exn) :
  demo_mfcc audio sr n_mfcc = Raise e -> exn_is_Exception e = true.
Proof.
  destruct audio; simpl; [|discriminate]. intros [= <-]. reflexivity.
Qed.

Lemma extract_mfcc_shape_witness :
  (exists m,
     @extract_mfcc demo_librosa "long.wav" default_n_mfcc default_max_pad_len =
     (Ok (Some m), []) /\
     (shape0 m, shape1 m) = (40, 174)%nat /\
     rows m = replicate 40 (take 174 (map demo_frame (seq 0 176)))) /\
  (exists m,
     @extract_mfcc demo_librosa "short.wav" default_n_mfcc default_max_pad_len =
     (Ok (Some m), []) /\
     (shape0 m, shape1 m) = (40, 174)%nat /\
     rows m = replicate 40 (map demo_frame (seq 0 2) ++ replicate 172 f32_zero)).
Proof.
  split.
  - destruct (proj1 (@extract_mfcc_shape demo_librosa demo_mfcc_shape "long.wav")
               (map demo_frame (seq 0 176)) 48000
               {| shape0 := 40; shape1 := 176;
                  rows := replicate 40 (map demo_frame (seq 0 176)) |}
               eq_refl eq_refl)
      as (m & Hm & Hshape & _ & _ & _ & Hcut & _).
    exists m. split; [exact Hm|]. split; [exact Hshape|].
    rewrite Hcut; [reflexivity | simpl; lia].
  - destruct (proj1 (@extract_mfcc_shape demo_librosa demo_mfcc_shape "short.wav")
               (map demo_frame (seq 0 2)) 48000
               {| shape0 := 40; shape1 := 2;
                  rows := replicate 40 (map demo_frame (seq 0 2)) |}
               eq_refl eq_refl)
      as (m & Hm & Hshape & _ & _ & Hpad & _).
    exists m. split; [exact Hm|]. split; [exact Hshape|].
    rewrite Hpad; [reflexivity | simpl; lia].
Defined.

(** A recording of 2 frames is padded with 172 zeros, one of 176 frames
    loses its last 2. *)
Example extract_mfcc_pads :
  rows <$> @extracted demo_librosa
             {| filename := "short.wav"; filepath := "short.wav"; emotion := "calm";
                gender := "male"; actor_id := 1 |} =
  Some (replicate 40 (map demo_frame (seq 0 2) ++ replicate 172 f32_zero)).
Proof. vm_compute. reflexivity. Qed.

Example extract_mfcc_truncates :
  rows <$> @extracted demo_librosa
             {| filename := "long.wav"; filepath := "long.wav"; emotion := "angry";
                gender := "male"; actor_id := 3 |} =
  Some (replicate 40 (map demo_frame (seq 0 174))).
Proof. vm_compute. reflexivity. Qed.

Lemma extract_mfcc_never_raises_witness :
  (exists r out,
     @extract_mfcc demo_librosa "gone.wav" 40 174 = (Ok r, out)) /\
  (forall e, @fails_with demo_librosa "gone.wav" 40 e ->
     @extract_mfcc demo_librosa "gone.wav" 40 174 =
     (Ok None, ["Error processing " +:+ "gone.wav" +:+ ": " +:+ exn_str e])).
Proof.
  exact (@extract_mfcc_never_raises demo_librosa
           demo_load_raises demo_mfcc_raises "gone.wav" 40 174).
Defined.

Example extract_mfcc_missing_file :
  @extract_mfcc demo_librosa "gone.wav" 40 174 =
  (Ok None,
   ["Error processing gone.wav: [Errno 2] No such file or directory: 'gone.wav'"]).
Proof. reflexivity. Qed.

Example extract_mfcc_empty_audio :
  @extract_mfcc demo_librosa "empty.wav" 40 174 =
  (Ok None, ["Error processing empty.wav: Audio buffer is empty"]).
Proof. reflexivity. Qed.

Lemma prepare_data_rows_witness :
  exists X y out,
    @prepare_data demo_librosa demo_table = (Ok (X, y), out) /\
    length X = 2%nat /\ length y = 2%nat /\ y = ["calm"; "angry"].
Proof.
  destruct (@prepare_data_rows demo_librosa
              demo_load_raises demo_mfcc_raises demo_table)
    as (X & y & out & Hrun & HX & Hy & _ & _ & Hlabels & _).
  exists X, y, out. split; [exact Hrun|].
  split; [rewrite HX; vm_compute; reflexivity|].
  split; [rewrite Hy; vm_compute; reflexivity|].
  rewrite Hlabels. vm_compute. reflexivity.
Defined.

Example prepare_data_prints :
  snd (@prepare_data demo_librosa demo_table) =
  [ "Extracting MFCC features...";
    "Error processing gone.wav: [Errno 2] No such file or directory: 'gone.wav'";
    "Error processing empty.wav: Audio buffer is empty";
    "✅ MFCC features and labels saved as 'X_mfcc.npy' and 'y_labels.npy'" ].
Proof. vm_compute. reflexivity. Qed.

(** ** Arrays: reading an item of a broadcast result *)

Lemma broadcast_op_get (op : float32 -> float32 -> float32)
    (X : ndarray3) (M : ndarray2) (n i j : nat) :
  get3 (broadcast_op op X M) n i j =
  (x ← get3 X n i j; y ← (r ← rows M !! i; r !! j); Some (op x y)).
Proof.
  unfold get3, broadcast_op. simpl. rewrite list_lookup_fmap.
  destruct (a3_data X !! n) as [m|]; simpl; [|reflexivity].
  rewrite lookup_zip_with.
  destruct (m !! i) as [r|]; simpl; [|reflexivity].
  destruct (rows M !! i) as [r'|]; simpl.
  - rewrite lookup_zip_with. reflexivity.
  - destruct (r !! j); reflexivity.
Qed.

Lemma reduce_axis0_get (f : list float32 -> float32) (X : ndarray3) (i j : nat) :
  (i < a3_dim1 X)%nat -> (j < a3_dim2 X)%nat ->
  (r ← rows (reduce_axis0 f X) !! i; r !! j) = Some (f (column X i j)).
Proof.
  intros Hi Hj. unfold reduce_axis0. simpl.
  rewrite list_lookup_fmap, lookup_seq_lt by exact Hi. simpl.
  rewrite list_lookup_fmap, lookup_seq_lt by exact Hj. reflexivity.
Qed.

Lemma reduce_axis0_wf (f : list float32 -> float32) (X : ndarray3) :
  wf2 (reduce_axis0 f X) /\
  shape0 (reduce_axis0 f X) = a3_dim1 X /\ shape1 (reduce_axis0 f X) = a3_dim2 X.
Proof.
  repeat split; simpl.
  - rewrite length_map, length_seq. reflexivity.
  - apply Forall_map, Forall_forall. intros i _. simpl.
    rewrite length_map, length_seq. reflexivity.
Qed.

Lemma broadcast_op_wf (op : float32 -> float32 -> float32) (X : ndarray3) (M : ndarray2) :
  wf3 X -> wf2 M -> shape0 M = a3_dim1 X -> shape1 M = a3_dim2 X ->
  wf3 (broadcast_op op X M).
Proof.
  intros HX [HM0 HM1] H0 H1. unfold wf3, broadcast_op. simpl.
  apply Forall_map. eapply Forall_impl; [exact HX|].
  intros m [Hm Hr]. simpl. split.
  - rewrite length_zip_with. lia.
  - apply Forall_forall. intros r Hin.
    apply list_elem_of_lookup in Hin as [i Hi].
    apply lookup_zip_with_Some in Hi as (a & b & -> & Ha & Hb).
    rewrite length_zip_with.
    apply list_elem_of_lookup_2 in Ha, Hb.
    rewrite Forall_forall in Hr, HM1.
    rewrite (Hr a Ha), (HM1 b Hb). lia.
Qed.

Lemma newaxis_get (X : ndarray3) (n i j : nat) :
  get4 (newaxis X) n i j 0 = get3 X n i j.
Proof.
  unfold get4, get3, newaxis. simpl. rewrite list_lookup_fmap.
  destruct (a3_data X !! n) as [m|]; simpl; [|reflexivity].
  rewrite list_lookup_fmap. destruct (m !! i) as [r|]; simpl; [|reflexivity].
  rewrite list_lookup_fmap. destruct (r !! j); reflexivity.
Qed.

Lemma newaxis_wf (X : ndarray3) : wf3 X -> wf4 (newaxis X).
Proof.
  intros HX. unfold wf4, newaxis. simpl.
  apply Forall_map. eapply Forall_impl; [exact HX|].
  intros m [Hm Hr]. simpl. split; [by rewrite length_map|].
  apply Forall_map. eapply Forall_impl; [exact Hr|].
  intros r Hlen. simpl. split; [by rewrite length_map|].
  apply Forall_map, Forall_forall. reflexivity.
Qed.

(** An item that is there lies within the trailing dimensions. *)
Lemma get3_in_range (X : ndarray3) (n i j : nat) (x : float32) :
  wf3 X -> get3 X n i j = Some x ->
  (n < length (a3_data X) /\ i < a3_dim1 X /\ j < a3_dim2 X)%nat.
Proof.
  unfold wf3, get3. intros HX H.
  destruct (a3_data X !! n) as [m|] eqn:Hn; simpl in H; [|discriminate].
  destruct (m !! i) as [r|] eqn:Hi; simpl in H; [|discriminate].
  rewrite Forall_forall in HX.
  destruct (HX m (list_elem_of_lookup_2 _ _ _ Hn)) as [Hm Hr].
  rewrite Forall_forall in Hr.
  specialize (Hr r (list_elem_of_lookup_2 _ _ _ Hi)).
  apply lookup_lt_Some in Hn, Hi, H. lia.
Qed.

(** Dividing by a zero gives an infinity or a NaN, never a finite number. *)
Lemma f32_div_zero (x : float32) (s : bool) :
  is_finite (f32_div x (S754_zero s)) = false /\
  (f32_div x (S754_zero s) = S754_nan \/
   exists sign, f32_div x (S754_zero s) = S754_infinity sign).
Proof.
  destruct x; simpl; eauto.
Qed.

(** ** Label encoding *)

Lemma drop_repeats_elem_of (s : string) (ar : list string) :
  s ∈ drop_repeats ar <-> s ∈ ar.
Proof.
  induction ar as [|a ar IH]; [reflexivity|].
  destruct ar as [|b ar]; [reflexivity|].
  change (drop_repeats (a :: b :: ar)) with
    (if String.eqb a b then drop_repeats (b :: ar) else a :: drop_repeats (b :: ar)).
  destruct (String.eqb_spec a b) as [->|Hne].
  - rewrite IH, !elem_of_cons. tauto.
  - rewrite elem_of_cons, IH, !elem_of_cons. tauto.
Qed.

Lemma drop_repeats_NoDup (ar : list string) :
  StronglySorted String.le ar -> NoDup (drop_repeats ar).
Proof.
  induction 1 as [|a ar Hsorted IH Hall]; [constructor|].
  destruct ar as [|b ar]; [apply NoDup_singleton|].
  change (drop_repeats (a :: b :: ar)) with
    (if String.eqb a b then drop_repeats (b :: ar) else a :: drop_repeats (b :: ar)).
  destruct (String.eqb_spec a b) as [->|Hne]; [exact IH|].
  apply NoDup_cons. split; [|exact IH].
  rewrite drop_repeats_elem_of. intros Hin.
  apply StronglySorted_inv in Hsorted as [_ Hb].
  apply Forall_cons in Hall as [Hab Hall].
  apply elem_of_cons in Hin as [->|Hin]; [done|].
  rewrite Forall_forall in Hb. specialize (Hb a Hin).
  apply Hne. by apply (anti_symm String.le).
Qed.

Lemma drop_repeats_Sorted (ar : list string) :
  StronglySorted String.le ar -> StronglySorted String.le (drop_repeats ar).
Proof.
  induction 1 as [|a ar Hsorted IH Hall]; [constructor|].
  destruct ar as [|b ar]; [by repeat constructor|].
  change (drop_repeats (a :: b :: ar)) with
    (if String.eqb a b then drop_repeats (b :: ar) else a :: drop_repeats (b :: ar)).
  destruct (String.eqb a b); [exact IH|].
  constructor; [exact IH|].
  apply Forall_forall. intros x Hx. rewrite drop_repeats_elem_of in Hx.
  rewrite Forall_forall in Hall. by apply Hall.
Qed.

(** [np.unique] lists every label of [y] once, in sorted order. *)
Lemma np_unique_elem_of (s : string) (y : list string) : s ∈ np_unique y <-> s ∈ y.
Proof.
  unfold np_unique. rewrite drop_repeats_elem_of.
  by rewrite (merge_sort_Permutation String.le y).
Qed.

Lemma np_unique_NoDup (y : list string) : NoDup (np_unique y).
Proof.
  apply drop_repeats_NoDup, StronglySorted_merge_sort; apply _.
Qed.

Lemma np_unique_Sorted (y : list string) : StronglySorted String.le (np_unique y).
Proof.
  apply drop_repeats_Sorted, StronglySorted_merge_sort; apply _.
Qed.

Lemma np_unique_length (y : list string) :
  length (np_unique y) = length (remove_dups y).
Proof.
  apply Permutation_length, NoDup_Permutation.
  - apply np_unique_NoDup.
  - apply NoDup_remove_dups.
  - intros s. by rewrite np_unique_elem_of, elem_of_remove_dups.
Qed.

Lemma position_lookup (s : string) (classes : list string) :
  s ∈ classes -> classes !! position s classes = Some s.
Proof.
  induction classes as [|c classes IH]; intros Hin; [by apply elem_of_nil in Hin|].
  simpl. destruct (String.eqb_spec c s) as [->|Hne]; [reflexivity|].
  apply elem_of_cons in Hin as [->|Hin]; [done|]. by apply IH.
Qed.

Lemma position_lt (s : string) (classes : list string) :
  s ∈ classes -> (position s classes < length classes)%nat.
Proof.
  intros Hin. eapply lookup_lt_Some, position_lookup, Hin.
Qed.

Lemma position_of_lookup (classes : list string) (k : nat) (s : string) :
  NoDup classes -> classes !! k = Some s -> position s classes = k.
Proof.
  intros Hnd Hk.
  eapply NoDup_lookup; [exact Hnd | | exact Hk].
  apply position_lookup. eapply list_elem_of_lookup_2, Hk.
Qed.

(** The integer of a label is its place in the sorted distinct labels. *)
Lemma fit_transform_lookup (y : list string) (i : nat) (l : string) :
  y !! i = Some l ->
  exists k, snd (fit_transform y) !! i = Some k /\
            classes_ (fst (fit_transform y)) !! k = Some l.
Proof.
  intros Hi. exists (position l (np_unique y)). simpl. split.
  - rewrite list_lookup_fmap, Hi. reflexivity.
  - apply position_lookup, np_unique_elem_of. eapply list_elem_of_lookup_2, Hi.
Qed.

(** The largest integer handed out is the place of the last class. *)
Lemma fit_transform_max (y : list string) :
  y <> [] -> (max_list (snd (fit_transform y)) + 1)%nat = length (np_unique y).
Proof.
  intros Hy. simpl.
  assert (Hle : (max_list (map (fun s => position s (np_unique y)) y)
                 < length (np_unique y))%nat).
  { destruct y as [|l y']; [done|].
    assert (Hne : map (fun s => position s (np_unique (l :: y'))) (l :: y') <> [])
      by discriminate.
    apply max_list_elem_of, list_elem_of_fmap in Hne as (s & -> & Hs).
    apply position_lt, np_unique_elem_of, Hs. }
  assert (Hlast : exists s, np_unique y !! (length (np_unique y) - 1)%nat = Some s).
  { apply lookup_lt_is_Some_2. lia. }
  destruct Hlast as [s Hs].
  assert (Hin : s ∈ y) by (eapply np_unique_elem_of, list_elem_of_lookup_2, Hs).
  assert (Hpos : position s (np_unique y) = (length (np_unique y) - 1)%nat)
    by (apply position_of_lookup; [apply np_unique_NoDup | exact Hs]).
  assert (Hge : (position s (np_unique y)
                 <= max_list (map (fun s => position s (np_unique y)) y))%nat).
  { apply max_list_elem_of_le, list_elem_of_fmap. eauto. }
  lia.
Qed.

(** ** One-hot rows and their largest item *)

Lemma argmax_loop_after_one (best i n : nat) :
  argmax_loop f32_one best i (replicate n f32_zero) = best.
Proof.
  revert i. induction n as [|n IH]; intros i; [reflexivity|]. simpl. apply IH.
Qed.

Lemma argmax_loop_finds_one (best i a b : nat) :
  argmax_loop f32_zero best i (replicate a f32_zero ++ f32_one :: replicate b f32_zero)
  = (i + a)%nat.
Proof.
  revert i. induction a as [|a IH]; intros i; simpl.
  - rewrite argmax_loop_after_one. lia.
  - change (SFleb f32_zero f32_zero) with true. simpl. rewrite IH. lia.
Qed.

(** The largest item of a one-hot row is where the one is. *)
Lemma np_argmax_one_hot (n k : nat) :
  (k < n)%nat -> np_argmax (<[k := f32_one]> (replicate n f32_zero)) = Ok k.
Proof.
  intros Hk. rewrite insert_replicate_lt by exact Hk.
  destruct k as [|k]; simpl.
  - rewrite argmax_loop_after_one. reflexivity.
  - rewrite argmax_loop_finds_one. reflexivity.
Qed.

Lemma mapM_map_Ok {A B} (f : B -> result A) (h : A -> B) (l : list A) :
  Forall (fun a => f (h a) = Ok a) l -> mapM f (map h l) = Ok l.
Proof.
  induction 1 as [|a l Ha _ IH]; simpl; [reflexivity|].
  rewrite Ha. simpl. rewrite IH. reflexivity.
Qed.

(** On a vector of integers that is not empty, [to_categorical] gives one
    row per integer, [np.max + 1] wide, and [np.argmax] along the rows gives
    the integers back. *)
Lemma to_categorical_argmax (ks : list nat) :
  ks <> [] ->
  exists y_cat,
    to_categorical ks = Ok y_cat /\
    length y_cat = length ks /\
    Forall (fun row => length row = (max_list ks + 1)%nat) y_cat /\
    np_argmax_axis1 y_cat = Ok ks.
Proof.
  intros Hne.
  exists (map (fun k => <[k := f32_one]> (replicate (max_list ks + 1) f32_zero)) ks).
  split; [destruct ks; [done | reflexivity]|].
  split; [apply length_map|]. split.
  - apply Forall_map, Forall_forall. intros k _. simpl.
    rewrite length_insert, length_replicate. reflexivity.
  - apply mapM_map_Ok, Forall_forall. intros k Hk.
    apply np_argmax_one_hot. apply max_list_elem_of_le in Hk. lia.
Qed.

Lemma to_categorical_empty : exists e, to_categorical [] = Raise e.
Proof. eexists. reflexivity. Qed.

(** C7: for every label vector and every sample [i] of it with label [l],
    the labels are encoded to integers (the place of each label among the
    sorted distinct labels), the integers are expanded to one-hot rows, and
    taking the index of the largest item of each row and reading the
    encoder's class list there gives back the whole label vector, so [l] at
    sample [i]. *)
Theorem label_round_trip (y : list string) (i : nat) (l : string) :
  y !! i = Some l ->
  exists y_cat ks names,
    to_categorical (snd (fit_transform y)) = Ok y_cat /\
    np_argmax_axis1 y_cat = Ok ks /\
    class_names (fst (fit_transform y)) ks = Ok names /\
    names = y /\
    names !! i = Some l /\
    StronglySorted String.le (classes_ (fst (fit_transform y))) /\
    NoDup (classes_ (fst (fit_transform y))) /\
    (forall s, s ∈ classes_ (fst (fit_transform y)) <-> s ∈ y).
Proof.
  intros Hi.
  assert (Hne : snd (fit_transform y) <> []).
  { simpl. destruct y; [discriminate Hi | discriminate]. }
  destruct (to_categorical_argmax _ Hne) as (y_cat & Hcat & _ & _ & Hmax).
  exists y_cat, (snd (fit_transform y)), y.
  split; [exact Hcat|]. split; [exact Hmax|]. split.
  - unfold class_names. simpl. apply mapM_map_Ok, Forall_forall.
    intros s Hs. unfold index.
    rewrite position_lookup by (by apply np_unique_elem_of). reflexivity.
  - split; [reflexivity|]. split; [exact Hi|]. simpl.
    split; [apply np_unique_Sorted|]. split; [apply np_unique_NoDup|].
    intros s. apply np_unique_elem_of.
Qed.

Lemma label_round_trip_witness :
  exists y_cat ks names,
    to_categorical (snd (fit_transform ["sad"; "angry"; "sad"; "calm"])) = Ok y_cat /\
    np_argmax_axis1 y_cat = Ok ks /\
    class_names (fst (fit_transform ["sad"; "angry"; "sad"; "calm"])) ks = Ok names /\
    names = ["sad"; "angry"; "sad"; "calm"] /\
    names !! 2%nat = Some "sad".
Proof.
  destruct (label_round_trip ["sad"; "angry"; "sad"; "calm"] 2 "sad")
    as (y_cat & ks & names & H1 & H2 & H3 & H4 & H5 & _); [reflexivity|].
  exists y_cat, ks, names. auto.
Defined.

Example label_encoding_sample :
  fit_transform ["sad"; "angry"; "sad"; "calm"] =
  ({| classes_ := ["angry"; "calm"; "sad"] |}, [2; 0; 2; 1]%nat) /\
  to_categorical [2; 0; 2; 1]%nat =
  Ok [ [f32_zero; f32_zero; f32_one]; [f32_one; f32_zero; f32_zero];
       [f32_zero; f32_zero; f32_one]; [f32_zero; f32_one; f32_zero] ].
Proof. split; vm_compute; reflexivity. Qed.

(** ** [load_data] *)

Section TrainingFacts.
Context {np : Numpy}.

(** With both files loaded and at least one label, [load_data] returns the
    normalised tensor with its new axis, the one-hot rows and the encoder. *)
Lemma load_data_Ok (x_path y_path : string) (X : ndarray3) (y : list string) :
  np_load_features x_path = Ok X -> np_load_labels y_path = Ok y -> y <> [] ->
  exists y_cat,
    to_categorical (snd (fit_transform y)) = Ok y_cat /\
    load_data x_path y_path = Ok (newaxis (normalize X), y_cat, fst (fit_transform y)).
Proof.
  intros HX Hy Hne.
  assert (Hks : snd (fit_transform y) <> []) by (simpl; by destruct y).
  destruct (to_categorical_argmax _ Hks) as (y_cat & Hcat & _).
  exists y_cat. split; [exact Hcat|].
  unfold load_data. rewrite HX, Hy. simpl in *. rewrite Hcat. reflexivity.
Qed.

(** Without a label, [to_categorical] raises and so does [load_data]. *)
Lemma load_data_no_labels (x_path y_path : string) (X : ndarray3) :
  np_load_features x_path = Ok X -> np_load_labels y_path = Ok [] ->
  exists e, load_data x_path y_path = Raise e.
Proof.
  intros HX Hy. unfold load_data. rewrite HX, Hy. simpl. eauto.
Qed.

Lemma normalize_get (X : ndarray3) (n i j : nat) (x : float32) :
  wf3 X -> get3 X n i j = Some x ->
  get3 (normalize X) n i j =
  Some (f32_div (f32_sub x (np_mean1 (column X i j))) (np_std1 (column X i j))).
Proof.
  intros Hwf Hx. destruct (get3_in_range X n i j x Hwf Hx) as (_ & Hi & Hj).
  unfold normalize, np_mean_axis0, np_std_axis0.
  rewrite !broadcast_op_get, Hx.
  rewrite !reduce_axis0_get by assumption. reflexivity.
Qed.

Lemma normalize_wf (X : ndarray3) : wf3 X -> wf3 (normalize X).
Proof.
  intros Hwf. unfold normalize, np_mean_axis0, np_std_axis0.
  destruct (reduce_axis0_wf np_mean1 X) as (Hm & Hm0 & Hm1).
  destruct (reduce_axis0_wf np_std1 X) as (Hs & Hs0 & Hs1).
  apply broadcast_op_wf; try assumption.
  apply broadcast_op_wf; assumption.
Qed.

(** C5: with both files loaded ([X] a well-formed 3-dimensional array, at
    least one label), [load_data] returns a feature tensor of shape
    [(N, d1, d2, 1)] for [X] of shape [(N, d1, d2)], so (N, 40, 174, 1) for
    the tensor of the extraction; its item [(n, i, j, 0)] is
    [(X[n, i, j] - mu) / sigma], with [mu] and [sigma] the mean and the
    standard deviation of the items [X[:, i, j]] along the sample axis. *)
Theorem load_data_normalizes (x_path y_path : string) (X : ndarray3) (y : list string) :
  np_load_features x_path = Ok X -> np_load_labels y_path = Ok y ->
  wf3 X -> y <> [] ->
  exists Xn y_cat le,
    load_data x_path y_path = Ok (Xn, y_cat, le) /\
    shape4 Xn = (length (a3_data X), a3_dim1 X, a3_dim2 X, 1%nat) /\
    (forall N, shape3 X = (N, 40, 174)%nat -> shape4 Xn = (N, 40, 174, 1)%nat) /\
    wf4 Xn /\
    (forall n i j x, get3 X n i j = Some x ->
       get4 Xn n i j 0 =
       Some (f32_div (f32_sub x (np_mean1 (column X i j))) (np_std1 (column X i j)))) /\
    (forall n i j, get3 X n i j = None -> get4 Xn n i j 0 = None).
Proof.
  intros HX Hy Hwf Hne.
  destruct (load_data_Ok x_path y_path X y HX Hy Hne) as (y_cat & _ & Hrun).
  exists (newaxis (normalize X)), y_cat, (fst (fit_transform y)).
  split; [exact Hrun|].
  assert (Hshape : shape4 (newaxis (normalize X)) =
                   (length (a3_data X), a3_dim1 X, a3_dim2 X, 1%nat)).
  { unfold shape4, newaxis, normalize, broadcast_op. simpl.
    rewrite !length_map. reflexivity. }
  split; [exact Hshape|]. split.
  { intros N [= <- H1 H2]. rewrite Hshape, H1, H2. reflexivity. }
  split; [apply newaxis_wf, normalize_wf, Hwf|]. split.
  - intros n i j x Hx. rewrite newaxis_get. by apply normalize_get.
  - intros n i j Hnone. rewrite newaxis_get.
    unfold normalize. rewrite !broadcast_op_get, Hnone. reflexivity.
Qed.

(** C6: when the standard deviation at position [(i, j)] is a zero, the
    division is still carried out: [load_data] returns normally, and for
    every sample the item at that position is the quotient by that zero,
    which is a NaN or an infinity and not a finite number. *)
Theorem load_data_zero_std (x_path y_path : string) (X : ndarray3) (y : list string)
    (i j : nat) (s : bool) :
  np_load_features x_path = Ok X -> np_load_labels y_path = Ok y ->
  wf3 X -> y <> [] ->
  np_std1 (column X i j) = S754_zero s ->
  exists Xn y_cat le,
    load_data x_path y_path = Ok (Xn, y_cat, le) /\
    forall n x, get3 X n i j = Some x ->
      exists v,
        get4 Xn n i j 0 = Some v /\
        v = f32_div (f32_sub x (np_mean1 (column X i j))) (S754_zero s) /\
        is_finite v = false /\
        (v = S754_nan \/ exists sign, v = S754_infinity sign).
Proof.
  intros HX Hy Hwf Hne Hstd.
  destruct (load_data_Ok x_path y_path X y HX Hy Hne) as (y_cat & _ & Hrun).
  exists (newaxis (normalize X)), y_cat, (fst (fit_transform y)).
  split; [exact Hrun|].
  intros n x Hx. eexists. split.
  { rewrite newaxis_get, (normalize_get X n i j x Hwf Hx), Hstd. reflexivity. }
  split; [reflexivity|]. apply f32_div_zero.
Qed.

(** C9: the one-hot matrix [load_data] returns has one column per distinct
    label of the label file (as many as the encoder has classes), whatever
    that number is, while the model [main] builds has 8 output units
    whatever was loaded. *)
Theorem num_classes_from_labels (x_path y_path : string)
    (X : ndarray3) (y : list string) :
  np_load_features x_path = Ok X -> np_load_labels y_path = Ok y -> y <> [] ->
  exists Xn y_cat le,
    load_data x_path y_path = Ok (Xn, y_cat, le) /\
    length y_cat = length y /\
    Forall (fun row => length row = length (remove_dups y)) y_cat /\
    length (classes_ le) = length (remove_dups y) /\
    output_units (main_model (Xn, y_cat, le)) = Some 8%nat.
Proof.
  intros HX Hy Hne.
  destruct (load_data_Ok x_path y_path X y HX Hy Hne) as (y_cat & Hcat & Hrun).
  exists (newaxis (normalize X)), y_cat, (fst (fit_transform y)).
  split; [exact Hrun|].
  assert (Hks : snd (fit_transform y) <> []) by (simpl; by destruct y).
  destruct (to_categorical_argmax _ Hks) as (y_cat' & Hcat' & Hlen & Hwidth & _).
  rewrite Hcat in Hcat'. injection Hcat' as <-.
  split; [rewrite Hlen; apply length_map|]. split.
  - rewrite fit_transform_max, np_unique_length in Hwidth by exact Hne. exact Hwidth.
  - split; [apply np_unique_length | reflexivity].
Qed.
End TrainingFacts.

(** *** [load_data] on two small files *)

Lemma demo_features_wf : wf3 demo_features.
Proof.
  unfold wf3. simpl. repeat constructor.
Qed.

Lemma load_data_normalizes_witness :
  exists Xn y_cat le,
    @load_data demo_numpy "X_mfcc.npy" "y_labels.npy" = Ok (Xn, y_cat, le) /\
    shape4 Xn = (2, 1, 2, 1)%nat /\
    get4 Xn 1 0 1 0 =
    Some (f32_div (f32_sub f32_three (seq_mean1 (column demo_features 0 1)))
                  (seq_std1 (column demo_features 0 1))).
Proof.
  destruct (@load_data_normalizes demo_numpy "X_mfcc.npy" "y_labels.npy"
              demo_features ["sad"; "calm"])
    as (Xn & y_cat & le & Hrun & Hshape & _ & _ & Hget & _);
    [reflexivity | reflexivity | exact demo_features_wf | discriminate |].
  exists Xn, y_cat, le. split; [exact Hrun|]. split; [exact Hshape|].
  apply Hget. reflexivity.
Defined.

(** The constant position becomes NaN in both samples; the other one
    becomes -1 and 1. *)
Example load_data_sample :
  @load_data demo_numpy "X_mfcc.npy" "y_labels.npy" =
  Ok ({| a4_dim1 := 1; a4_dim2 := 2; a4_dim3 := 1;
         a4_data := [ [[[S754_nan]; [SFopp f32_one]]]; [[[S754_nan]; [f32_one]]] ] |},
      [ [f32_zero; f32_one]; [f32_one; f32_zero] ],
      {| classes_ := ["calm"; "sad"] |}).
Proof. vm_compute. reflexivity. Qed.

Lemma load_data_zero_std_witness :
  exists Xn y_cat le,
    @load_data demo_numpy "X_mfcc.npy" "y_labels.npy" = Ok (Xn, y_cat, le) /\
    exists v, get4 Xn 0 0 0 0 = Some v /\ is_finite v = false.
Proof.
  destruct (@load_data_zero_std demo_numpy "X_mfcc.npy" "y_labels.npy"
              demo_features ["sad"; "calm"] 0 0 false)
    as (Xn & y_cat & le & Hrun & Hget);
    [reflexivity | reflexivity | exact demo_features_wf | discriminate
    | vm_compute; reflexivity |].
  exists Xn, y_cat, le. split; [exact Hrun|].
  destruct (Hget 0%nat f32_one) as (v & Hv & _ & Hinf & _); [reflexivity|].
  exists v. split; assumption.
Defined.

Lemma num_classes_from_labels_witness :
  exists Xn y_cat le,
    @load_data demo_numpy "X_mfcc.npy" "y_labels.npy" = Ok (Xn, y_cat, le) /\
    Forall (fun row => length row = 2%nat) y_cat /\
    output_units (main_model (Xn, y_cat, le)) = Some 8%nat.
Proof.
  destruct (@num_classes_from_labels demo_numpy "X_mfcc.npy" "y_labels.npy"
              demo_features ["sad"; "calm"])
    as (Xn & y_cat & le & Hrun & _ & Hwidth & _ & Hunits);
    [reflexivity | reflexivity | discriminate |].
  exists Xn, y_cat, le. split; [exact Hrun|]. split; [exact Hwidth | exact Hunits].
Defined.

(** Nine distinct labels (with ["unknown"]) give nine columns. *)
Example nine_classes :
  bind (to_categorical
          (snd (fit_transform
             ["neutral"; "calm"; "happy"; "sad"; "angry"; "fearful";
              "disgust"; "surprised"; "unknown"; "sad"])))
       (fun y_cat => Ok (map (fun row : list float32 => length row) y_cat))
  = Ok (replicate 10 9%nat).
Proof. vm_compute. reflexivity. Qed.

(** * Further properties *)

(** ** The scan as one pass *)

Lemma mapM_app {A B} (f : A -> result B) (l1 l2 : list A) :
  mapM f (l1 ++ l2) = (bs1 <- mapM f l1 ;; bs2 <- mapM f l2 ;; Ok (bs1 ++ bs2)).
Proof.
  induction l1 as [|a l1 IH]; simpl.
  - destruct (mapM f l2); reflexivity.
  - destruct (f a) as [b|e]; simpl; [|reflexivity].
    rewrite IH. destruct (mapM f l1) as [bs1|e]; simpl; [|reflexivity].
    destruct (mapM f l2); reflexivity.
Qed.

Lemma mapM_length {A B} (f : A -> result B) (l : list A) (bs : list B) :
  mapM f l = Ok bs -> length bs = length l.
Proof.
  revert bs. induction l as [|a l IH]; intros bs; simpl.
  - intros [= <-]. reflexivity.
  - destruct (f a) as [b|e]; simpl; [|discriminate].
    destruct (mapM f l) as [bs'|e]; simpl; [|discriminate].
    intros [= <-]. simpl. f_equal. by apply IH.
Qed.

(** [mapM] succeeds exactly when [f] does on every item. *)
Lemma mapM_is_Ok {A B} (f : A -> result B) (l : list A) :
  (exists bs, mapM f l = Ok bs) <-> Forall (fun a => exists b, f a = Ok b) l.
Proof.
  induction l as [|a l IH]; simpl.
  - split; [constructor | eauto].
  - split.
    + intros [bs Hbs]. destruct (f a) as [b|e] eqn:Ea; simpl in Hbs; [|discriminate].
      destruct (mapM f l) as [bs'|e]; simpl in Hbs; [|discriminate].
      constructor; [eauto | apply IH; eauto].
    + intros Hall. apply Forall_cons in Hall as [[b Hb] Hl].
      apply IH in Hl as [bs Hbs]. rewrite Hb, Hbs. simpl. eauto.
Qed.

(** [mapM] raises what [f] raises on the first item it fails on. *)
Lemma mapM_first_Raise {A B} (f : A -> result B) (l1 l2 : list A) (a : A) (e : exn) :
  Forall (fun a' => exists b, f a' = Ok b) l1 -> f a = Raise e ->
  mapM f (l1 ++ a :: l2) = Raise e.
Proof.
  intros Hl1 Ha. rewrite mapM_app.
  apply mapM_is_Ok in Hl1 as [bs1 ->]. simpl. rewrite Ha. reflexivity.
Qed.

Lemma mapM_lookup {A B} (f : A -> result B) (l : list A) (bs : list B) (i : nat) (a : A) :
  mapM f l = Ok bs -> l !! i = Some a -> exists b, bs !! i = Some b /\ f a = Ok b.
Proof.
  revert bs i. induction l as [|a' l IH]; intros bs i; simpl; [by intros _ ?|].
  destruct (f a') as [b|e] eqn:Ea; simpl; [|discriminate].
  destruct (mapM f l) as [bs'|e]; simpl; [|discriminate].
  intros [= <-]. destruct i as [|i]; simpl.
  - intros [= <-]. eauto.
  - intros Hi. by apply IH.
Qed.

(** A loop whose body appends the rows [f] gives for the items [g a] is one
    pass of [f] over all those items. *)
Lemma for_each_pass {A B R} (body : A -> list R -> result (list R))
    (f : B -> result R) (g : A -> list B) (l : list A) (md : list R) :
  (forall a md', body a md' = (rows <- mapM f (g a) ;; Ok (md' ++ rows))) ->
  for_each body l md = (rows <- mapM f (flat_map g l) ;; Ok (md ++ rows)).
Proof.
  intros Hbody. revert md. induction l as [|a l IH]; intros md.
  - simpl. rewrite app_nil_r. reflexivity.
  - cbn [for_each flat_map]. rewrite Hbody, mapM_app.
    destruct (mapM f (g a)) as [rows1|e]; simpl; [|reflexivity].
    rewrite IH. destruct (mapM f (flat_map g l)) as [rows2|e]; simpl; [|reflexivity].
    rewrite <- app_assoc. reflexivity.
Qed.

Lemma filter_flat_map {A B} (P : B -> Prop) `{forall b, Decision (P b)}
    (g : A -> list B) (l : list A) :
  filter P (flat_map g l) = flat_map (fun a => filter P (g a)) l.
Proof.
  induction l as [|a l IH]; [reflexivity|].
  cbn [flat_map]. rewrite filter_app, IH. reflexivity.
Qed.

Lemma filter_map_flat {A B} (P : B -> bool) (h : A -> B) (l : list A) :
  filter (fun b => P b) (map h l) =
  flat_map (fun a => if P (h a) then [h a] else []) l.
Proof.
  induction l as [|a l IH]; [reflexivity|].
  cbn [map flat_map]. rewrite filter_cons, IH.
  destruct (P (h a)) eqn:E.
  - rewrite decide_True by exact I. reflexivity.
  - rewrite decide_False by exact id. reflexivity.
Qed.

Section ScanPass.
Context {env : ScanEnv}.

(** A seven-part [.wav] name appends the dict of [record_of]. *)
Lemma scan_file_record_of (subdir file : string) (metadata : list recording) :
  seven_part_wav file = true ->
  scan_file subdir file metadata =
  (r <- record_of (subdir, file) ;; Ok (metadata ++ [r])).
Proof.
  intros Hname. unfold scan_file, record_of, actor_stem, emotion_code.
  unfold seven_part_wav in Hname. apply andb_true_iff in Hname as [Hwav Hlen].
  rewrite Hwav, Hlen. simpl. apply Nat.eqb_eq in Hlen.
  destruct (lookup_lt_is_Some_2 (split "-"%char file) 2) as [code Hcode]; [lia|].
  destruct (lookup_lt_is_Some_2 (split "-"%char file) 6) as [lst Hlast]; [lia|].
  destruct (split_head "."%char lst) as [stem Hstem].
  unfold index. rewrite Hcode, Hlast. simpl. rewrite Hstem. simpl.
  destruct (py_int stem); reflexivity.
Qed.

(** The loop over the files of one directory. *)
Lemma scan_files_pass (subdir : string) (files : list string) (metadata : list recording) :
  for_each (scan_file subdir) files metadata =
  (rows <- mapM record_of (filter (fun df => seven_part_wav (snd df))
                                  (map (fun file => (subdir, file)) files)) ;;
   Ok (metadata ++ rows)).
Proof.
  rewrite filter_map_flat.
  apply for_each_pass. intros file md.
  destruct (seven_part_wav file) eqn:Hname; cbn [snd]; rewrite Hname.
  - rewrite scan_file_record_of by exact Hname. cbn [mapM].
    destruct (record_of (subdir, file)); reflexivity.
  - rewrite scan_file_skips by exact Hname. simpl. rewrite app_nil_r. reflexivity.
Qed.

(** The whole scan is one pass of [record_of] over the recorded names, in
    the order they are walked: the first failure ends it. *)
Lemma scan_pass_from (roots : list string) (metadata : list recording) :
  for_each scan_root roots metadata =
  (rows <- mapM record_of (recorded roots) ;; Ok (metadata ++ rows)).
Proof.
  unfold recorded, walked. rewrite filter_flat_map.
  apply for_each_pass. intros root md.
  unfold scan_root. rewrite filter_flat_map.
  apply for_each_pass. intros [[subdir dirs] files] md'.
  cbn [scan_subdir fst snd]. apply scan_files_pass.
Qed.

Lemma scan_pass (roots : list string) :
  scan roots = mapM record_of (recorded roots).
Proof.
  unfold scan. rewrite scan_pass_from.
  destruct (mapM record_of (recorded roots)); reflexivity.
Qed.
End ScanPass.

Lemma mapM_map_eq {A B C} (f : A -> result B) (h : B -> C) (k : A -> C)
    (l : list A) (bs : list B) :
  (forall a b, f a = Ok b -> h b = k a) ->
  mapM f l = Ok bs -> map h bs = map k l.
Proof.
  intros Hfk. revert bs. induction l as [|a l IH]; intros bs; simpl.
  - intros [= <-]. reflexivity.
  - destruct (f a) as [b|e] eqn:Ea; simpl; [|discriminate].
    destruct (mapM f l) as [bs'|e]; simpl; [|discriminate].
    intros [= <-]. simpl. rewrite (Hfk a b Ea), (IH bs' eq_refl). reflexivity.
Qed.

Lemma split_length (sep : ascii) (s : string) :
  length (split sep s) = S (count_char sep s).
Proof.
  induction s as [|c s IH]; simpl; [reflexivity|].
  destruct (Ascii.eqb c sep); simpl; [by rewrite IH|].
  destruct (split sep s) as [|part parts] eqn:E; [by apply split_nonempty in E|].
  exact IH.
Qed.

(** X6: a name is one the scan records exactly when it ends in [.wav] and
    holds exactly six hyphens. *)
Theorem seven_part_wav_six_hyphens (file : string) :
  seven_part_wav file = true <->
  endswith file ".wav" = true /\ count_char "-" file = 6%nat.
Proof.
  unfold seven_part_wav. rewrite andb_true_iff, Nat.eqb_eq, split_length.
  split; intros [Hwav Hn]; split; try assumption; lia.
Qed.

Section ScanExtras.
Context {env : ScanEnv}.

Lemma record_of_is_Ok (df : string * string) :
  (exists r, record_of df = Ok r) <-> (exists n, py_int (actor_stem (snd df)) = Ok n).
Proof.
  destruct df as [subdir file]. unfold record_of. cbn [snd].
  destruct (py_int (actor_stem file)) as [n|e]; simpl; split; intros [? ?];
    eauto; discriminate.
Qed.

(** X1: when the scan ends normally, the table has one row per recorded
    name (the seven-part [.wav] names among the files walked), in the order
    the files are walked; each row carries that name, the path
    [os.path.join(subdir, name)], and the integer [int] gives for its actor
    stem. *)
Theorem scan_table_follows_walk (roots : list string) (table : list recording) :
  scan roots = Ok table ->
  length table = length (recorded roots) /\
  map (fun r => (filename r, filepath r)) table =
    map (fun df => (snd df, os_path_join (fst df) (snd df))) (recorded roots) /\
  map (fun r => Ok (actor_id r)) table =
    map (fun df => py_int (actor_stem (snd df))) (recorded roots).
Proof.
  rewrite scan_pass. intros Hpass. split; [eapply mapM_length, Hpass|]. split.
  - eapply mapM_map_eq; [|exact Hpass].
    intros [subdir file] r. unfold record_of.
    destruct (py_int (actor_stem file)); simpl; [|discriminate].
    intros [= <-]. reflexivity.
  - eapply mapM_map_eq; [|exact Hpass].
    intros [subdir file] r. unfold record_of. cbn [snd].
    destruct (py_int (actor_stem file)); simpl; [|discriminate].
    intros [= <-]. reflexivity.
Qed.

(** X2: the scan ends normally exactly when [int] accepts the actor stem of
    every seven-part [.wav] name among the files walked. *)
Theorem scan_succeeds_iff (roots : list string) :
  (exists table, scan roots = Ok table) <->
  (forall subdir file, (subdir, file) ∈ walked roots -> seven_part_wav file = true ->
     exists n, py_int (actor_stem file) = Ok n).
Proof.
  rewrite scan_pass, mapM_is_Ok, Forall_forall. unfold recorded. split.
  - intros Hall subdir file Hin Hname.
    apply (record_of_is_Ok (subdir, file)), Hall, list_elem_of_filter.
    split; [cbn [snd]; by rewrite Hname | exact Hin].
  - intros Hall [subdir file] Hin. apply list_elem_of_filter in Hin as [Hname Hin].
    apply record_of_is_Ok. cbn [snd] in *. apply (Hall subdir file Hin).
    by destruct (seven_part_wav file).
Qed.

(** X3: the exception the scan ends with is the one [int] raises on the
    first recorded name, in walk order, whose actor stem it rejects. *)
Theorem scan_first_failure (roots : list string)
    (before after : list (string * string)) (subdir file : string) (e : exn) :
  recorded roots = before ++ (subdir, file) :: after ->
  Forall (fun df => exists n, py_int (actor_stem (snd df)) = Ok n) before ->
  py_int (actor_stem file) = Raise e ->
  scan roots = Raise e.
Proof.
  intros Hsplit Hbefore Hbad. rewrite scan_pass, Hsplit.
  apply mapM_first_Raise.
  - eapply Forall_impl; [exact Hbefore|]. intros df. apply record_of_is_Ok.
  - unfold record_of. rewrite Hbad. reflexivity.
Qed.

(** X4: scanning a list of roots is scanning its parts one after the other
    and appending the tables; nothing is compared or removed, so a folder
    reached twice is recorded twice. *)
Theorem scan_roots_app (roots1 roots2 : list string) :
  scan (roots1 ++ roots2) =
  (table1 <- scan roots1 ;; table2 <- scan roots2 ;; Ok (table1 ++ table2)).
Proof.
  rewrite !scan_pass. unfold recorded, walked.
  rewrite flat_map_app, filter_app. apply mapM_app.
Qed.

(** X5: every row of the table has gender ["female"] or ["male"] and an
    emotion among the eight labels of the code table and ["unknown"]. *)
Theorem scan_rows_vocabulary (roots : list string) (table : list recording) :
  scan roots = Ok table ->
  Forall (fun r =>
            gender r ∈ ["female"; "male"] /\
            emotion r ∈ ["neutral"; "calm"; "happy"; "sad"; "angry"; "fearful";
                         "disgust"; "surprised"; "unknown"]) table.
Proof.
  intros Hscan. apply scan_rows_match_names in Hscan.
  eapply Forall_impl; [exact Hscan|].
  intros r (_ & code & lst & stem & _ & _ & _ & _ & Hemo & Hgen). split.
  - rewrite Hgen. destruct (Z.even (actor_id r)); set_solver.
  - rewrite Hemo. unfold table_label.
    destruct (List.find _ code_table) as [entry|] eqn:E; [|set_solver].
    apply List.find_some in E as [Hin _]. unfold code_table in Hin. simpl in Hin.
    repeat (destruct Hin as [<-|Hin]; [set_solver|]). contradiction.
Qed.
End ScanExtras.

Lemma scan_table_follows_walk_witness :
  length [ {| filename := "03-01-05-01-01-01-12.wav";
              filepath := "input/Actor_12/03-01-05-01-01-01-12.wav";
              emotion := "angry"; gender := "female"; actor_id := 12 |};
           {| filename := "03-01-09-01-01-01-11.wav";
              filepath := "input/Actor_12/03-01-09-01-01-01-11.wav";
              emotion := "unknown"; gender := "male"; actor_id := 11 |} ]
  = length (@recorded demo_env root_dirs).
Proof.
  eapply (@scan_table_follows_walk demo_env root_dirs). reflexivity.
Defined.

Lemma scan_first_failure_witness :
  @scan broken_env root_dirs =
  Raise (ValueError "invalid literal for int() with base 10: 'abc'").
Proof.
  apply (@scan_first_failure broken_env root_dirs
           [("input", "03-01-05-01-01-01-12.wav")]
           [("input", "03-01-02-01-01-01-03.wav")]
           "input" "01-01-03-01-01-01-abc.wav").
  - reflexivity.
  - repeat constructor. exists 12. reflexivity.
  - reflexivity.
Defined.

Lemma scan_rows_vocabulary_witness :
  Forall (fun r =>
            gender r ∈ ["female"; "male"] /\
            emotion r ∈ ["neutral"; "calm"; "happy"; "sad"; "angry"; "fearful";
                         "disgust"; "surprised"; "unknown"])
    [ {| filename := "03-01-05-01-01-01-12.wav";
         filepath := "input/Actor_12/03-01-05-01-01-01-12.wav";
         emotion := "angry"; gender := "female"; actor_id := 12 |};
      {| filename := "03-01-09-01-01-01-11.wav";
         filepath := "input/Actor_12/03-01-09-01-01-01-11.wav";
         emotion := "unknown"; gender := "male"; actor_id := 11 |} ].
Proof.
  apply (@scan_rows_vocabulary demo_env root_dirs). reflexivity.
Defined.

(** A root listed twice is recorded twice. *)
Example scan_same_root_twice :
  @scan demo_env ["input"; "input"] =
  bind (@scan demo_env ["input"]) (fun table => Ok (table ++ table)).
Proof. reflexivity. Qed.

(** ** Actor numbers are not negative *)

Lemma split_parts_no_sep (sep : ascii) (s : string) :
  Forall (fun part => count_char sep part = 0%nat) (split sep s).
Proof.
  induction s as [|c s IH]; simpl; [by repeat constructor|].
  destruct (Ascii.eqb c sep) eqn:E; [by constructor|].
  destruct (split sep s) as [|part parts]; [by repeat constructor; simpl; rewrite E|].
  apply Forall_cons in IH as [Hpart Hparts].
  constructor; [simpl; by rewrite E | exact Hparts].
Qed.

(** Splitting on another character does not bring in a character. *)
Lemma split_parts_without (sep c : ascii) (s : string) :
  count_char c s = 0%nat ->
  Forall (fun part => count_char c part = 0%nat) (split sep s).
Proof.
  induction s as [|a s IH]; simpl; [by repeat constructor|].
  destruct (Ascii.eqb a c) eqn:Ec; [discriminate|]. intros Hs.
  specialize (IH Hs).
  destruct (Ascii.eqb a sep); [by constructor|].
  destruct (split sep s) as [|part parts]; [by repeat constructor; simpl; rewrite Ec|].
  apply Forall_cons in IH as [Hpart Hparts].
  constructor; [simpl; by rewrite Ec | exact Hparts].
Qed.

Lemma count_char_rev_app (c : ascii) (s acc : string) :
  count_char c (String.rev_app s acc) = (count_char c s + count_char c acc)%nat.
Proof.
  revert acc. induction s as [|a s IH]; intros acc; simpl; [reflexivity|].
  rewrite IH. simpl. destruct (Ascii.eqb a c); lia.
Qed.

Lemma count_char_lstrip (c : ascii) (s : string) :
  (count_char c (lstrip s) <= count_char c s)%nat.
Proof.
  induction s as [|a s IH]; simpl; [lia|].
  destruct (is_py_space a); simpl; destruct (Ascii.eqb a c); lia.
Qed.

Lemma count_char_strip (c : ascii) (s : string) :
  count_char c s = 0%nat -> count_char c (strip s) = 0%nat.
Proof.
  intros Hs. unfold strip, String.rev.
  rewrite count_char_rev_app. simpl.
  pose proof (count_char_lstrip c (String.rev_app (lstrip s) EmptyString)) as H1.
  rewrite count_char_rev_app in H1. simpl in H1.
  pose proof (count_char_lstrip c s) as H2. lia.
Qed.

Lemma scan_digits_nonneg (acc : Z) (digits : N) (prev_underscore : bool)
    (s : string) (n : Z) (count : N) (rest : string) :
  0 <= acc ->
  scan_digits acc digits prev_underscore s = Some (n, count, rest) -> 0 <= n.
Proof.
  revert acc digits prev_underscore.
  induction s as [|c s IH]; intros acc digits prev_underscore Hacc; simpl.
  - destruct prev_underscore; [discriminate|]. by intros [= <- _ _].
  - destruct (digit_value c) as [d|] eqn:Ed.
    + apply IH. unfold digit_value in Ed.
      destruct (_ && _) eqn:Erange; [|discriminate]. injection Ed as <-.
      apply andb_true_iff in Erange as [H1 _]. apply Z.leb_le in H1. lia.
    + destruct (Ascii.eqb c "_").
      * destruct prev_underscore; [discriminate|]. by apply IH.
      * destruct prev_underscore; [discriminate|]. by intros [= <- _ _].
Qed.

(** Without a minus sign in the literal, [int_ascii] gives no negative
    number. *)
Lemma int_ascii_nonneg (s : string) (n : Z) :
  count_char "-" s = 0%nat -> int_ascii s = Ok n -> 0 <= n.
Proof.
  intros Hs. apply count_char_strip in Hs. unfold int_ascii.
  assert (Hrun : forall ds, int_digits s ds = Ok n -> 0 <= n).
  { intros ds. unfold int_digits.
    assert (Hscan : match scan_digits 0 0 false ds with
                    | Some (n0, digits, rest) =>
                        if (max_str_digits <? digits)%N
                        then Raise (ValueError
                          ("Exceeds the limit (4300 digits) for integer string conversion: value has " +:+
                           pretty digits +:+
                           " digits; use sys.set_int_max_str_digits() to increase the limit"))
                        else if (digits =? 0)%N then invalid_literal s
                        else match rest with
                             | EmptyString => Ok n0
                             | String _ _ => invalid_literal s
                             end
                    | None => invalid_literal s
                    end = Ok n -> 0 <= n).
    { destruct (scan_digits 0 0 false ds) as [[[n0 digits] rest]|] eqn:Ed;
        [|discriminate].
      destruct (max_str_digits <? digits)%N; [discriminate|].
      destruct (digits =? 0)%N; [discriminate|].
      destruct rest; [|discriminate]. intros [= <-].
      apply scan_digits_nonneg in Ed; lia. }
    destruct ds as [|c ds']; [exact Hscan|].
    destruct (Ascii.eqb_spec c "_") as [->|Hc]; [discriminate|].
    destruct c as [[] [] [] [] [] [] [] []]; try exact Hscan; by destruct Hc. }
  destruct (strip s) as [|a ds] eqn:E; [apply Hrun|].
  destruct (Ascii.eqb_spec a "-") as [->|Hminus].
  { simpl in Hs. discriminate. }
  destruct a as [[] [] [] [] [] [] [] []]; try (by apply Hrun); by destruct Hminus.
Qed.

(** White space is skipped on both sides and single underscores between
    digits are read over. *)
Example int_ascii_white_space :
  int_ascii (" +1_2" +:+ String "010" EmptyString) = Ok 12.
Proof. reflexivity. Qed.

(** A control character that is not white space makes the literal invalid;
    the message escapes it. *)
Example int_ascii_control_character :
  int_ascii (String "028" "12") =
  Raise (ValueError ("invalid literal for int() with base 10: '" +:+
                     String backslash "x1c12'")).
Proof. reflexivity. Qed.

(** A literal with a single quote is shown between double quotes. *)
Example int_ascii_quoted :
  int_ascii "a'b" =
  Raise (ValueError ("invalid literal for int() with base 10: " +:+
                     String double_quote "a'b" +:+ String double_quote EmptyString)).
Proof. reflexivity. Qed.

(** X7: provided [int] gives a negative number only for a literal with a
    minus sign in it, as the [int] of Python does, no row of the table has a
    negative [actor_id], whatever the files are called: the parts of a name
    split on hyphens hold no minus sign for [int] to read. *)
Theorem scan_actor_id_nonneg (env : ScanEnv) (roots : list string)
    (table : list recording) :
  (forall s n, count_char "-" s = 0%nat -> @py_int env s = Ok n -> 0 <= n) ->
  @scan env roots = Ok table ->
  Forall (fun r => 0 <= actor_id r) table.
Proof.
  intros Hnonneg Hscan. apply scan_rows_match_names in Hscan.
  eapply Forall_impl; [exact Hscan|].
  intros r (_ & code & lst & stem & _ & Hlast & Hstem & Hint & _).
  eapply Hnonneg; [|exact Hint].
  pose proof (split_parts_no_sep "-" (filename r)) as Hparts.
  rewrite Forall_forall in Hparts.
  specialize (Hparts lst (list_elem_of_lookup_2 _ _ _ Hlast)).
  pose proof (split_parts_without "." "-" lst Hparts) as Hstems.
  rewrite Forall_forall in Hstems.
  exact (Hstems stem (list_elem_of_lookup_2 _ _ _ Hstem)).
Qed.

Lemma scan_actor_id_nonneg_witness :
  Forall (fun r => 0 <= actor_id r)
    [ {| filename := "03-01-05-01-01-01-12.wav";
         filepath := "input/Actor_12/03-01-05-01-01-01-12.wav";
         emotion := "angry"; gender := "female"; actor_id := 12 |};
      {| filename := "03-01-09-01-01-01-11.wav";
         filepath := "input/Actor_12/03-01-09-01-01-01-11.wav";
         emotion := "unknown"; gender := "male"; actor_id := 11 |} ].
Proof.
  apply (scan_actor_id_nonneg demo_env root_dirs); [|reflexivity].
  intros s n. exact (int_ascii_nonneg s n).
Defined.

(** ** [extract_mfcc] for any sizes *)

Lemma get2_in_range (m : ndarray2) (i j : nat) :
  wf2 m -> (i < shape0 m)%nat -> (j < shape1 m)%nat -> is_Some (get2 m i j).
Proof.
  intros [Hrows Hcols] Hi Hj. unfold get2.
  destruct (lookup_lt_is_Some_2 (rows m) i) as [r Hr]; [lia|].
  rewrite Hr. simpl. apply lookup_lt_is_Some_2.
  rewrite Forall_forall in Hcols.
  rewrite (Hcols r (list_elem_of_lookup_2 _ _ _ Hr)). exact Hj.
Qed.


Section ExtractionExtras.
Context {lib : Librosa}.

Hypothesis mfcc_shape : forall audio sr n_mfcc raw,
  librosa_mfcc audio sr n_mfcc = Ok raw -> wf2 raw /\ shape0 raw = n_mfcc.


(** X10: whatever the table holds, every matrix the dataset loop has
    collected when it ends is a rectangular array of shape exactly
    (40, 174): each has 40 rows of 174 items. *)
Theorem prepare_data_shapes (table : list recording)
    (X : list ndarray2) (y out : list string) :
  prepare_data table = (Ok (X, y), out) ->
  Forall (fun m => wf2 m /\ (shape0 m, shape1 m) = (40, 174)%nat) X.
Proof.
  unfold prepare_data.
  destruct (prepare_loop table [] [] _) as [[[X' y']|e] out'] eqn:Hloop; [|discriminate].
  intros [= <- <- <-].
  assert (Hgen : forall table X0 y0 out0 X1 y1 out1,
    Forall (fun m => wf2 m /\ (shape0 m, shape1 m) = (40, 174)%nat) X0 ->
    prepare_loop table X0 y0 out0 = (Ok (X1, y1), out1) ->
    Forall (fun m => wf2 m /\ (shape0 m, shape1 m) = (40, 174)%nat) X1).
  { clear Hloop. intros table0. induction table0 as [|row table0 IH];
      intros X0 y0 out0 X1 y1 out1 HX0; simpl.
    - intros [= <- <- <-]. exact HX0.
    - unfold extract_mfcc.
      destruct (extract_mfcc_body (filepath row) default_n_mfcc default_max_pad_len)
        as [m|e] eqn:Hbody.
      + apply IH. apply Forall_app. split; [exact HX0|]. constructor; [|constructor].
        apply extract_mfcc_body_Ok in Hbody as (audio & sr & raw & _ & Hraw & ->).
        destruct (mfcc_shape _ _ _ _ Hraw) as [Hwf Hrows].
        destruct (fit_shape raw default_n_mfcc default_max_pad_len Hwf Hrows)
          as (Hm & H0 & H1).
        cbv zeta in *. split; [exact Hm|]. rewrite H0, H1. reflexivity.
      + destruct (exn_is_Exception e); [by apply IH | discriminate]. }
  eapply Hgen; [|exact Hloop]. constructor.
Qed.
End ExtractionExtras.

(** ** The dataset loop: interruption and printed lines *)

Section DatasetExtras.
Context {lib : Librosa}.

(** Over rows on which [extract_mfcc] returns, the loop goes on with the
    matrices, labels and lines of those rows appended. *)
Lemma prepare_loop_prefix (before rest : list recording)
    (X : list ndarray2) (y out : list string) :
  Forall (fun row => exists r printed,
            extract_mfcc (filepath row) default_n_mfcc default_max_pad_len
            = (Ok r, printed)) before ->
  prepare_loop (before ++ rest) X y out =
  prepare_loop rest (X ++ omap extracted before)
               (y ++ (emotion <$> kept_rows before))
               (out ++ concat (diagnostics <$> before)).
Proof.
  unfold kept_rows. intros Hall. revert X y out.
  induction Hall as [|row before (r & printed & Hrun) _ IH]; intros X y out.
  - simpl. rewrite !app_nil_r. reflexivity.
  - rewrite filter_cons. simpl. unfold extracted, diagnostics.
    rewrite Hrun. simpl. destruct r as [m|].
    + rewrite decide_True by eauto. rewrite IH. simpl.
      rewrite <- !app_assoc. reflexivity.
    + rewrite decide_False by (intros [? ?]; discriminate). rewrite IH.
      rewrite <- !app_assoc. reflexivity.
Qed.

(** X9: when a library call fails on a row with an exception that does not
    derive from [Exception] (an interrupt), and [extract_mfcc] returned on
    the rows before it, the last cell ends with that exception: the rows
    after it are not processed, nothing is saved, and the closing message is
    not printed. *)
Theorem prepare_data_interrupted (before after : list recording) (row : recording)
    (e : exn) :
  Forall (fun row' => exists r printed,
            extract_mfcc (filepath row') default_n_mfcc default_max_pad_len
            = (Ok r, printed)) before ->
  fails_with (filepath row) default_n_mfcc e ->
  exn_is_Exception e = false ->
  prepare_data (before ++ row :: after) =
  (Raise e, "Extracting MFCC features..." :: concat (diagnostics <$> before)).
Proof.
  intros Hbefore Hfail He. unfold prepare_data.
  rewrite prepare_loop_prefix by exact Hbefore. simpl.
  apply (proj2 (extract_mfcc_body_Raise _ _ default_max_pad_len _)) in Hfail.
  rewrite (extract_mfcc_lets_through _ _ _ _ Hfail He). simpl.
  rewrite app_nil_r. reflexivity.
Qed.

Hypothesis load_raises_Exception : forall filepath e,
  librosa_load filepath = Raise e -> exn_is_Exception e = true.
Hypothesis mfcc_raises_Exception : forall audio sr n_mfcc e,
  librosa_mfcc audio sr n_mfcc = Raise e -> exn_is_Exception e = true.

(** A row prints one line exactly when it yields no matrix. *)
Lemma row_prints_iff_dropped (row : recording) :
  length (diagnostics row) =
  match extracted row with Some _ => 0%nat | None => 1%nat end.
Proof.
  unfold diagnostics, extracted, extract_mfcc.
  destruct (extract_mfcc_body (filepath row) default_n_mfcc default_max_pad_len)
    as [m|e] eqn:Hbody; [reflexivity|].
  apply extract_mfcc_body_Raise in Hbody.
  assert (He : exn_is_Exception e = true).
  { destruct Hbody as [Hl|(a & s & _ & Hm)]; eauto. }
  rewrite He. reflexivity.
Qed.

(** X11: the last cell prints its two messages and, between them, exactly
    one line per row left out of the tensor: with [N] matrices saved from a
    table of [N + M] rows, [M + 2] lines are printed. *)
Theorem prepare_data_line_count (table : list recording)
    (X : list ndarray2) (y out : list string) :
  prepare_data table = (Ok (X, y), out) ->
  (length X <= length table)%nat /\
  length out = (2 + (length table - length X))%nat.
Proof.
  unfold prepare_data.
  rewrite (prepare_loop_appends load_raises_Exception mfcc_raises_Exception).
  intros [= <- <- <-]. simpl.
  assert (H : (length (concat (diagnostics <$> table))
               + length (omap extracted table) = length table)%nat).
  { induction table as [|row table IH]; [reflexivity|].
    cbn [fmap list_fmap concat omap list_omap]. rewrite length_app, row_prints_iff_dropped.
    destruct (extracted row); simpl in *; lia. }
  rewrite length_app. simpl. lia.
Qed.
End DatasetExtras.


Lemma prepare_data_shapes_witness :
  exists X y out,
    @prepare_data demo_librosa demo_table = (Ok (X, y), out) /\
    Forall (fun m => wf2 m /\ (shape0 m, shape1 m) = (40, 174)%nat) X.
Proof.
  eexists _, _, _. split; [vm_compute; reflexivity|].
  eapply (@prepare_data_shapes demo_librosa demo_mfcc_shape demo_table).
  vm_compute. reflexivity.
Defined.

Lemma prepare_data_line_count_witness :
  exists X y out,
    @prepare_data demo_librosa demo_table = (Ok (X, y), out) /\
    length out = (2 + (length demo_table - length X))%nat.
Proof.
  eexists _, _, _. split; [vm_compute; reflexivity|].
  eapply (@prepare_data_line_count demo_librosa demo_load_raises demo_mfcc_raises
            demo_table).
  vm_compute. reflexivity.
Defined.

Lemma prepare_data_interrupted_witness :
  @prepare_data interrupting_librosa
    ([ {| filename := "gone.wav"; filepath := "gone.wav"; emotion := "calm";
          gender := "male"; actor_id := 1 |} ] ++ interrupted_row :: demo_table) =
  (Raise (Exn "KeyboardInterrupt" false EmptyString),
   "Extracting MFCC features..." ::
   concat (@diagnostics interrupting_librosa <$>
             [ {| filename := "gone.wav"; filepath := "gone.wav"; emotion := "calm";
                  gender := "male"; actor_id := 1 |} ])).
Proof.
  apply (@prepare_data_interrupted interrupting_librosa).
  - repeat constructor. eexists _, _. reflexivity.
  - left. reflexivity.
  - reflexivity.
Defined.

(** ** The integers of the label encoder *)

Lemma StronglySorted_lookup_le {A} (R : relation A) (l : list A) (i j : nat) (a b : A) :
  StronglySorted R l -> l !! i = Some a -> l !! j = Some b -> (i < j)%nat -> R a b.
Proof.
  intros Hsorted. revert i j. induction Hsorted as [|x l _ IH Hall]; intros i j Hi Hj Hlt.
  - discriminate Hi.
  - destruct j as [|j]; [lia|]. destruct i as [|i]; simpl in *.
    + injection Hi as <-. rewrite Forall_forall in Hall.
      eapply Hall, list_elem_of_lookup_2, Hj.
    + apply (IH i j Hi Hj). lia.
Qed.

(** X12: two samples get the same integer exactly when they carry the same
    label. *)
Theorem fit_transform_same_label (y : list string) (i j : nat) (a b : string)
    (ka kb : nat) :
  y !! i = Some a -> y !! j = Some b ->
  snd (fit_transform y) !! i = Some ka -> snd (fit_transform y) !! j = Some kb ->
  (ka = kb <-> a = b).
Proof.
  intros Hi Hj Hka Hkb. simpl in Hka, Hkb.
  rewrite list_lookup_fmap, Hi in Hka. rewrite list_lookup_fmap, Hj in Hkb.
  injection Hka as <-. injection Hkb as <-.
  split; [|by intros ->].
  intros Heq.
  assert (Ha : np_unique y !! position a (np_unique y) = Some a).
  { apply position_lookup, np_unique_elem_of. eapply list_elem_of_lookup_2, Hi. }
  assert (Hb : np_unique y !! position b (np_unique y) = Some b).
  { apply position_lookup, np_unique_elem_of. eapply list_elem_of_lookup_2, Hj. }
  rewrite Heq in Ha. congruence.
Qed.

(** X13: the integers follow the order of the labels: a sample's integer is
    at most another's exactly when its label is at most the other's in the
    lexicographic order of the strings. *)
Theorem fit_transform_monotone (y : list string) (i j : nat) (a b : string)
    (ka kb : nat) :
  y !! i = Some a -> y !! j = Some b ->
  snd (fit_transform y) !! i = Some ka -> snd (fit_transform y) !! j = Some kb ->
  ((ka <= kb)%nat <-> String.le a b).
Proof.
  intros Hi Hj Hka Hkb.
  pose proof (fit_transform_lookup y i a Hi) as (ka' & Hka' & Ha).
  pose proof (fit_transform_lookup y j b Hj) as (kb' & Hkb' & Hb).
  rewrite Hka in Hka'. injection Hka' as <-.
  rewrite Hkb in Hkb'. injection Hkb' as <-.
  simpl in Ha, Hb. pose proof (np_unique_Sorted y) as Hsorted.
  split.
  - intros Hle. destruct (decide (ka = kb)) as [->|Hne].
    + rewrite Ha in Hb. injection Hb as ->. reflexivity.
    + eapply (StronglySorted_lookup_le _ _ ka kb); eauto. lia.
  - intros Hab. destruct (decide (ka <= kb)%nat) as [|Hgt]; [done|].
    assert (Hba : String.le b a).
    { eapply (StronglySorted_lookup_le _ _ kb ka); eauto. lia. }
    assert (a = b) as -> by (by apply (anti_symm String.le)).
    assert (ka = kb); [|lia].
    eapply NoDup_lookup; [apply np_unique_NoDup | exact Ha | exact Hb].
Qed.

(** X14: the integers handed out are exactly [0 .. K-1] for [K] classes:
    each is below the number of classes, and each number below it is the
    integer of some sample. *)
Theorem fit_transform_onto (y : list string) (k : nat) :
  k ∈ snd (fit_transform y) <-> (k < length (classes_ (fst (fit_transform y))))%nat.
Proof.
  simpl. rewrite list_elem_of_fmap. split.
  - intros (s & -> & Hs). by apply position_lt, np_unique_elem_of.
  - intros Hk. apply lookup_lt_is_Some_2 in Hk as [s Hs].
    exists s. split.
    + symmetry. apply position_of_lookup; [apply np_unique_NoDup | exact Hs].
    + eapply np_unique_elem_of, list_elem_of_lookup_2, Hs.
Qed.

(** X15: the classes, and so the integer of every label, depend only on
    which labels occur: two label vectors with the same labels, in any order
    and any number, are encoded with the same class list. *)
Theorem fit_transform_classes_of_set (y y' : list string) :
  (forall s, s ∈ y <-> s ∈ y') ->
  classes_ (fst (fit_transform y)) = classes_ (fst (fit_transform y')) /\
  forall s, position s (classes_ (fst (fit_transform y)))
          = position s (classes_ (fst (fit_transform y'))).
Proof.
  intros Hsame.
  assert (Heq : np_unique y = np_unique y').
  { apply (StronglySorted_unique String.le); try apply np_unique_Sorted.
    apply NoDup_Permutation; try apply np_unique_NoDup.
    intros s. rewrite !np_unique_elem_of. apply Hsame. }
  simpl. rewrite Heq. auto.
Qed.

(** X16: the row of a sample in the one-hot matrix has one column per
    class, a one in the column of the sample's integer and zeros in the
    others. *)
Theorem to_categorical_rows (y : list string) (i : nat) (l : string) :
  y !! i = Some l ->
  exists y_cat row k,
    to_categorical (snd (fit_transform y)) = Ok y_cat /\
    y_cat !! i = Some row /\
    snd (fit_transform y) !! i = Some k /\
    length row = length (classes_ (fst (fit_transform y))) /\
    forall c, (c < length row)%nat ->
      row !! c = Some (if decide (c = k) then f32_one else f32_zero).
Proof.
  intros Hi.
  assert (Hy : y <> []) by (intros ->; discriminate Hi).
  pose proof (fit_transform_max y Hy) as Hmax.
  destruct (fit_transform_lookup y i l Hi) as (k & Hk & _).
  set (ks := snd (fit_transform y)) in *.
  assert (Hks : ks <> []) by (intros E; rewrite E in Hk; discriminate Hk).
  set (n := (max_list ks + 1)%nat) in *.
  exists (map (fun k => <[k := f32_one]> (replicate n f32_zero)) ks),
         (<[k := f32_one]> (replicate n f32_zero)), k.
  split; [unfold to_categorical; destruct ks; [done | reflexivity]|].
  split; [rewrite list_lookup_fmap, Hk; reflexivity|].
  split; [exact Hk|].
  rewrite length_insert, length_replicate.
  split; [exact Hmax|].
  intros c Hc. destruct (decide (c = k)) as [->|Hne].
  - apply list_lookup_insert_eq. by rewrite length_replicate.
  - rewrite list_lookup_insert_ne by done. by apply lookup_replicate_2.
Qed.

Section TrainingExtras.
Context {np : Numpy}.

(** X17: [load_data] returns exactly when both files load and there is at
    least one label; a file that cannot be loaded ends it with the loader's
    own exception, the feature file first, and an empty label vector ends it
    with the [ValueError] of [to_categorical]. Nothing compares the number
    of feature rows with the number of labels. *)
Theorem load_data_outcomes (x_path y_path : string) :
  ((exists loaded, load_data x_path y_path = Ok loaded) <->
   (exists X y, np_load_features x_path = Ok X /\
                np_load_labels y_path = Ok y /\ y <> [])) /\
  (forall e, np_load_features x_path = Raise e -> load_data x_path y_path = Raise e) /\
  (forall X e, np_load_features x_path = Ok X -> np_load_labels y_path = Raise e ->
     load_data x_path y_path = Raise e) /\
  (forall X, np_load_features x_path = Ok X -> np_load_labels y_path = Ok [] ->
     load_data x_path y_path = Raise (ValueError
       "zero-size array to reduction operation maximum which has no identity")).
Proof.
  split; [|split; [|split]].
  - split.
    + intros [loaded Hrun]. unfold load_data in Hrun.
      destruct (np_load_features x_path) as [X|e]; simpl in Hrun; [|discriminate].
      destruct (np_load_labels y_path) as [y|e]; simpl in Hrun; [|discriminate].
      exists X, y. repeat split. intros ->. discriminate Hrun.
    + intros (X & y & HX & Hy & Hne).
      destruct (load_data_Ok x_path y_path X y HX Hy Hne) as (y_cat & _ & Hrun). eauto.
  - intros e HX. unfold load_data. rewrite HX. reflexivity.
  - intros X e HX Hy. unfold load_data. rewrite HX, Hy. reflexivity.
  - intros X HX Hy. unfold load_data. rewrite HX, Hy. reflexivity.
Qed.
End TrainingExtras.

Lemma fit_transform_same_label_witness :
  (2%nat = 2%nat <-> "sad" = "sad") /\ (2%nat = 0%nat <-> "sad" = "angry").
Proof.
  split.
  - apply (fit_transform_same_label ["sad"; "angry"; "sad"; "calm"] 0 2); reflexivity.
  - apply (fit_transform_same_label ["sad"; "angry"; "sad"; "calm"] 0 1); reflexivity.
Defined.

Lemma fit_transform_monotone_witness :
  (1 <= 2)%nat <-> String.le "calm" "sad".
Proof.
  apply (fit_transform_monotone ["sad"; "angry"; "sad"; "calm"] 3 0); reflexivity.
Defined.

Lemma fit_transform_classes_of_set_witness :
  classes_ (fst (fit_transform ["sad"; "angry"; "sad"])) =
  classes_ (fst (fit_transform ["angry"; "sad"])).
Proof.
  apply (fit_transform_classes_of_set ["sad"; "angry"; "sad"] ["angry"; "sad"]).
  intros s. rewrite !elem_of_cons, elem_of_nil. tauto.
Defined.

Lemma to_categorical_rows_witness :
  exists y_cat row k,
    to_categorical (snd (fit_transform ["sad"; "angry"; "sad"; "calm"])) = Ok y_cat /\
    y_cat !! 3%nat = Some row /\
    snd (fit_transform ["sad"; "angry"; "sad"; "calm"]) !! 3%nat = Some k /\
    length row = 3%nat.
Proof.
  destruct (to_categorical_rows ["sad"; "angry"; "sad"; "calm"] 3 "calm")
    as (y_cat & row & k & H1 & H2 & H3 & H4 & _); [reflexivity|].
  exists y_cat, row, k. auto.
Defined.

(** ** The index [np.argmax] returns *)

Ltac cmp_cases :=
  repeat match goal with
         | |- context [Z.compare ?a ?b] => destruct (Z.compare_spec a b)
         | |- context [Pos.compare_cont Eq ?a ?b] =>
             change (Pos.compare_cont Eq a b) with (Pos.compare a b);
             destruct (Pos.compare_spec a b)
         end.

(** Away from NaN, [<=] on floats is a total preorder. *)
Lemma SFleb_total (x y : float32) :
  is_nan x = false -> is_nan y = false -> SFleb x y = false -> SFleb y x = true.
Proof.
  unfold SFleb, SFcompare.
  destruct x as [[]|[]| |[] mx ex], y as [[]|[]| |[] my ey]; simpl; try congruence;
    cmp_cases; simpl; intros; try congruence; try lia.
Qed.

Lemma SFleb_trans (x y z : float32) :
  SFleb x y = true -> SFleb y z = true -> SFleb x z = true.
Proof.
  unfold SFleb, SFcompare.
  destruct x as [[]|[]| |[] mx ex], y as [[]|[]| |[] my ey], z as [[]|[]| |[] mz ez];
    simpl; try congruence;
    cmp_cases; simpl; intros; try congruence; try lia.
Qed.

Lemma SFleb_refl (x : float32) : is_nan x = false -> SFleb x x = true.
Proof.
  intros Hx. destruct (SFleb x x) eqn:E; [reflexivity|].
  by rewrite (SFleb_total x x Hx Hx E) in E.
Qed.

Lemma SFleb_nan_l (y : float32) : SFleb S754_nan y = false.
Proof. reflexivity. Qed.

Lemma argmax_loop_bound (mp : float32) (best i : nat) (rest : list float32) :
  (best < i)%nat -> (argmax_loop mp best i rest < i + length rest)%nat.
Proof.
  revert mp best i. induction rest as [|x rest IH]; intros mp best i Hbest; simpl; [lia|].
  destruct (negb (SFleb x mp)).
  - destruct (is_nan x); [lia|]. specialize (IH x i (S i)). lia.
  - specialize (IH mp best (S i)). lia.
Qed.

(** X18: [np.argmax] raises on an empty row only; on any other row, NaN or
    not, the index it returns is an index of the row. *)
Theorem np_argmax_in_range (row : list float32) :
  (row = [] -> exists e, np_argmax row = Raise e) /\
  (row <> [] -> exists k, np_argmax row = Ok k /\ (k < length row)%nat).
Proof.
  split.
  - intros ->. eexists. reflexivity.
  - intros Hne. destruct row as [|x rest]; [done|]. simpl.
    eexists. split; [reflexivity|].
    destruct (is_nan x); [lia|].
    pose proof (argmax_loop_bound x 0 1 rest). lia.
Qed.

Lemma argmax_loop_first_nan (mp : float32) (best i : nat) (pre post : list float32) :
  is_nan mp = false -> Forall (fun x => is_nan x = false) pre ->
  argmax_loop mp best i (pre ++ S754_nan :: post) = (i + length pre)%nat.
Proof.
  intros Hmp Hpre. revert mp best i Hmp.
  induction Hpre as [|x pre Hx _ IH]; intros mp best i Hmp; simpl.
  - lia.
  - destruct (negb (SFleb x mp)).
    + rewrite Hx, IH by exact Hx. lia.
    + rewrite IH by exact Hmp. lia.
Qed.

(** X19: on a row that holds a NaN, [np.argmax] returns the index of the
    first NaN, whatever the other items are. *)
Theorem np_argmax_first_nan (pre post : list float32) :
  Forall (fun x => is_nan x = false) pre ->
  np_argmax (pre ++ S754_nan :: post) = Ok (length pre).
Proof.
  intros Hpre. destruct Hpre as [|x pre Hx Hpre]; [reflexivity|].
  simpl. rewrite Hx. f_equal.
  rewrite argmax_loop_first_nan by assumption. reflexivity.
Qed.

Lemma argmax_loop_max (pre rest : list float32) (mp : float32) (best : nat) :
  pre !! best = Some mp ->
  Forall (fun x => SFleb x mp = true) pre ->
  (forall j x, (j < best)%nat -> pre !! j = Some x -> SFleb mp x = false) ->
  is_nan mp = false ->
  Forall (fun x => is_nan x = false) rest ->
  exists v,
    (pre ++ rest) !! argmax_loop mp best (length pre) rest = Some v /\
    Forall (fun x => SFleb x v = true) (pre ++ rest) /\
    (forall j x, (j < argmax_loop mp best (length pre) rest)%nat ->
       (pre ++ rest) !! j = Some x -> SFleb v x = false).
Proof.
  intros Hbest Hle Hfirst Hmp Hrest. revert pre mp best Hbest Hle Hfirst Hmp.
  induction Hrest as [|x rest Hx _ IH]; intros pre mp best Hbest Hle Hfirst Hmp.
  - simpl. rewrite app_nil_r. eauto.
  - cbn [argmax_loop]. rewrite Hx.
    replace (pre ++ x :: rest) with ((pre ++ [x]) ++ rest) by (by rewrite <- app_assoc).
    replace (S (length pre)) with (length (pre ++ [x]))
      by (rewrite length_app; simpl; lia).
    pose proof (lookup_lt_Some _ _ _ Hbest) as Hlt.
    destruct (SFleb x mp) eqn:Hxmp; simpl.
    + apply IH; [by apply lookup_app_l_Some | | | exact Hmp].
      * apply Forall_app. split; [exact Hle | by repeat constructor].
      * intros j y Hj Hy. apply (Hfirst j y Hj).
        assert (Hjp : (j < length pre)%nat) by lia.
        rewrite lookup_app_l in Hy by exact Hjp. exact Hy.
    + pose proof (SFleb_total x mp Hx Hmp Hxmp) as Hmpx.
      apply IH; [| | | exact Hx].
      * rewrite lookup_app_r by lia. by rewrite Nat.sub_diag.
      * apply Forall_app. split.
        -- eapply Forall_impl; [exact Hle|]. intros y Hy. simpl in Hy.
           eapply SFleb_trans; eauto.
        -- repeat constructor. by apply SFleb_refl.
      * intros j y Hj Hy.
        rewrite lookup_app_l in Hy by exact Hj.
        rewrite Forall_forall in Hle.
        pose proof (Hle y (list_elem_of_lookup_2 _ _ _ Hy)) as Hymp.
        destruct (SFleb x y) eqn:Hxy; [|reflexivity].
        by rewrite (SFleb_trans x y mp Hxy Hymp) in Hxmp.
Qed.

(** X20: on a row without NaN that is not empty, the item at the index
    [np.argmax] returns is at least every item of the row, and every item
    before it is strictly smaller: among equal largest items the first one
    is the one picked. *)
Theorem np_argmax_first_largest (row : list float32) :
  row <> [] -> Forall (fun x => is_nan x = false) row ->
  exists k v,
    np_argmax row = Ok k /\ row !! k = Some v /\
    Forall (fun x => SFleb x v = true) row /\
    (forall j x, (j < k)%nat -> row !! j = Some x -> SFleb v x = false).
Proof.
  intros Hne Hall. destruct row as [|x rest]; [done|].
  apply Forall_cons in Hall as [Hx Hrest]. simpl. rewrite Hx.
  destruct (argmax_loop_max [x] rest x 0) as (v & Hv & Hle & Hfirst);
    [reflexivity | repeat constructor; by apply SFleb_refl | intros; lia
    | exact Hx | exact Hrest |].
  exists (argmax_loop x 0 1 rest), v. auto.
Qed.

Lemma np_argmax_in_range_witness :
  exists k, np_argmax [f32_zero; f32_one; f32_zero] = Ok k /\ (k < 3)%nat.
Proof.
  destruct (np_argmax_in_range [f32_zero; f32_one; f32_zero]) as [_ H].
  apply H. discriminate.
Defined.

Lemma np_argmax_first_nan_witness :
  np_argmax ([f32_one; f32_zero] ++ S754_nan :: [f32_three; S754_nan]) = Ok 2%nat.
Proof.
  apply (np_argmax_first_nan [f32_one; f32_zero] [f32_three; S754_nan]).
  repeat constructor.
Defined.

Lemma np_argmax_first_largest_witness :
  exists k v,
    np_argmax [f32_one; f32_three; f32_zero; f32_three] = Ok k /\
    [f32_one; f32_three; f32_zero; f32_three] !! k = Some v /\
    Forall (fun x => SFleb x v = true) [f32_one; f32_three; f32_zero; f32_three].
Proof.
  destruct (np_argmax_first_largest [f32_one; f32_three; f32_zero; f32_three])
    as (k & v & H1 & H2 & H3 & _); [discriminate | repeat constructor |].
  exists k, v. auto.
Defined.

Example np_argmax_tie : np_argmax [f32_one; f32_three; f32_zero; f32_three] = Ok 1%nat.
Proof. reflexivity. Qed.

(** ** The shapes of the network *)








(** ** The confusion matrix *)

Lemma sum_list_map_with {A} (f : A -> nat) (l : list A) :
  sum_list (map f l) = sum_list_with f l.
Proof.
  induction l as [|a l IH]; simpl; [reflexivity | by rewrite IH].
Qed.

Lemma sum_list_with_add {A} (f g : A -> nat) (l : list A) :
  sum_list_with (fun a => f a + g a)%nat l = (sum_list_with f l + sum_list_with g l)%nat.
Proof.
  induction l as [|a l IH]; simpl; [reflexivity | rewrite IH; lia].
Qed.

Lemma sum_list_with_same {A} (f g : A -> nat) (l : list A) :
  (forall a, f a = g a) -> sum_list_with f l = sum_list_with g l.
Proof.
  intros Hfg. induction l as [|a l IH]; simpl; [reflexivity | by rewrite Hfg, IH].
Qed.

Lemma sum_list_with_zero {A} (l : list A) : sum_list_with (fun _ => 0%nat) l = 0%nat.
Proof. induction l; simpl; auto. Qed.

Lemma sum_list_with_hit (labels : list nat) (b0 : nat) :
  NoDup labels ->
  sum_list_with (fun b => if decide (b0 = b) then 1 else 0)%nat labels =
  if decide (b0 ∈ labels) then 1%nat else 0%nat.
Proof.
  induction 1 as [|b labels Hb _ IH].
  - destruct (decide (b0 ∈ [])) as [Hin|]; [by apply elem_of_nil in Hin | reflexivity].
  - cbn [sum_list_with]. rewrite IH.
    destruct (decide (b0 = b)) as [->|Hne].
    + destruct (decide (b ∈ labels)); [done|].
      destruct (decide (b ∈ b :: labels)) as [|Hout]; [reflexivity|].
      exfalso. apply Hout, list_elem_of_here.
    + destruct (decide (b0 ∈ labels)) as [Hin|Hout];
        destruct (decide (b0 ∈ b :: labels)) as [Hin'|Hout']; try reflexivity.
      * exfalso. by apply Hout', list_elem_of_further.
      * exfalso. apply elem_of_cons in Hin' as [->|Hin']; [by apply Hne | by apply Hout].
Qed.

(** Sorting the items of a list by a key among distinct labels counts every
    item that has a key once. *)
Lemma count_partition {A} (key : A -> option nat) (labels : list nat) (l : list A) :
  NoDup labels ->
  (forall x b, x ∈ l -> key x = Some b -> b ∈ labels) ->
  sum_list_with (fun b => length (filter (fun x => key x = Some b) l)) labels =
  length (filter (fun x => is_Some (key x)) l).
Proof.
  intros Hnd. induction l as [|x l IH]; intros Hin.
  - apply sum_list_with_zero.
  - rewrite (sum_list_with_same _
      (fun b => (if decide (key x = Some b) then 1 else 0)
                + length (filter (fun x0 => key x0 = Some b) l))%nat).
    2:{ intros b. rewrite filter_cons. destruct (decide (key x = Some b)); reflexivity. }
    rewrite sum_list_with_add, IH
      by (intros x0 b Hx0; apply Hin; by apply list_elem_of_further).
    rewrite filter_cons.
    destruct (key x) as [b0|] eqn:Ekey.
    + rewrite (sum_list_with_same _ (fun b => if decide (b0 = b) then 1 else 0)%nat).
      2:{ intros b. destruct (decide (b0 = b)) as [->|Hne].
          - by rewrite decide_True.
          - rewrite decide_False by congruence. reflexivity. }
      rewrite sum_list_with_hit by exact Hnd.
      destruct (decide (b0 ∈ labels)) as [|Hout].
      * destruct (decide (is_Some (Some b0))) as [|Hn]; [reflexivity|].
        exfalso. apply Hn. eauto.
      * exfalso. eapply Hout, Hin; [apply list_elem_of_here | exact Ekey].
    + rewrite (sum_list_with_same _ (fun _ => 0%nat)).
      2:{ intros b. destruct (decide (None = Some b)); [discriminate | reflexivity]. }
      rewrite sum_list_with_zero.
      destruct (decide (is_Some (@None nat))) as [[? ?]|]; [discriminate | reflexivity].
Qed.

Lemma unique_labels_elem_of (y_true y_pred : list nat) (k : nat) :
  k ∈ unique_labels y_true y_pred <-> k ∈ y_true ++ y_pred.
Proof.
  unfold unique_labels. rewrite (merge_sort_Permutation Nat.le).
  apply elem_of_remove_dups.
Qed.

Lemma unique_labels_NoDup (y_true y_pred : list nat) :
  NoDup (unique_labels y_true y_pred).
Proof.
  unfold unique_labels. rewrite (merge_sort_Permutation Nat.le).
  apply NoDup_remove_dups.
Qed.

Lemma zip_count_fst (t : nat) (y_true y_pred : list nat) :
  length y_true = length y_pred ->
  length (filter (fun tp : nat * nat => fst tp = t) (zip y_true y_pred)) =
  count_of t y_true.
Proof.
  unfold count_of. revert y_pred.
  induction y_true as [|a y_true IH]; intros [|b y_pred] Hlen; try discriminate;
    [reflexivity|].
  cbn [zip zip_with]. rewrite !filter_cons. cbn [fst].
  injection Hlen as Hlen. specialize (IH y_pred Hlen). cbn [zip] in IH.
  destruct (decide (a = t)); simpl; rewrite IH; reflexivity.
Qed.

Lemma count_by_key {A} (key : A -> option nat) (labels : list nat) (l : list A)
    (P : nat -> A -> Prop) (Q : A -> Prop)
    `{!forall b x, Decision (P b x), !forall x, Decision (Q x)} :
  NoDup labels ->
  (forall x b, x ∈ l -> key x = Some b -> b ∈ labels) ->
  (forall b x, P b x <-> key x = Some b) ->
  (forall x, Q x <-> is_Some (key x)) ->
  sum_list_with (fun b => length (filter (P b) l)) labels = length (filter Q l).
Proof.
  intros Hnd Hin HP HQ.
  rewrite (list_filter_iff Q (fun x => is_Some (key x)) l HQ).
  rewrite <- (count_partition key labels l Hnd Hin).
  apply sum_list_with_same. intros b. f_equal. apply list_filter_iff, HP.
Qed.

Lemma confusion_row_sum (t : nat) (y_true y_pred : list nat) :
  length y_true = length y_pred ->
  sum_list (map (fun p => count_pair t p (zip y_true y_pred))
                (unique_labels y_true y_pred)) = count_of t y_true.
Proof.
  intros Hlen. rewrite sum_list_map_with, <- (zip_count_fst t y_true y_pred Hlen).
  unfold count_pair.
  apply (count_by_key
    (fun tp : nat * nat => if decide (fst tp = t) then Some (snd tp) else None)).
  - apply unique_labels_NoDup.
  - intros [a b] p Hin. cbn [fst snd]. destruct (decide (a = t)); [|discriminate].
    intros [= <-]. apply unique_labels_elem_of, elem_of_app. right.
    eapply elem_of_zip_r, Hin.
  - intros p [a b]. cbn [fst snd]. destruct (decide (a = t)) as [->|Hne].
    + split; [by intros [= ->] | by intros [= ->]].
    + split; [intros [= -> ->]; done | discriminate].
  - intros [a b]. cbn [fst snd]. destruct (decide (a = t)).
    + split; eauto.
    + split; [done | intros [? ?]; discriminate].
Qed.

Lemma confusion_diagonal (y_true y_pred : list nat) :
  let labels := unique_labels y_true y_pred in
  diagonal (map (fun t => map (fun p => count_pair t p (zip y_true y_pred)) labels)
                labels)
  = map (fun t => count_pair t t (zip y_true y_pred)) labels.
Proof.
  intros labels. apply list_eq. intros i. unfold diagonal.
  rewrite list_lookup_imap, !list_lookup_fmap.
  destruct (labels !! i) as [t|] eqn:Hi; simpl; [|reflexivity].
  rewrite list_lookup_fmap, Hi. reflexivity.
Qed.

(** X21: for index vectors of the same length [confusion_matrix] returns
    a square matrix over the indices that occur; the sum of a row is the
    number of samples whose true index is the row's, the sum of all items is
    the number of samples, and the sum of the diagonal is the number of
    samples whose predicted index is the true one. *)
Theorem confusion_matrix_sums (y_true y_pred : list nat) (cm : list (list nat)) :
  confusion_matrix y_true y_pred = Ok cm ->
  length y_true = length y_pred /\
  length cm = length (unique_labels y_true y_pred) /\
  Forall (fun row => length row = length (unique_labels y_true y_pred)) cm /\
  map sum_list cm = map (fun t => count_of t y_true) (unique_labels y_true y_pred) /\
  sum_list (map sum_list cm) = length y_true /\
  sum_list (diagonal cm) =
    length (filter (fun tp : nat * nat => fst tp = snd tp) (zip y_true y_pred)).
Proof.
  unfold confusion_matrix.
  destruct (Nat.eqb_spec (length y_true) (length y_pred)) as [Hlen|]; [|discriminate].
  simpl. intros [= <-]. set (labels := unique_labels y_true y_pred).
  split; [exact Hlen|]. split; [apply length_map|]. split.
  { apply Forall_map, Forall_forall. intros t _. apply length_map. }
  assert (Hrows :
    map sum_list (map (fun t => map (fun p => count_pair t p (zip y_true y_pred)) labels)
                      labels)
    = map (fun t => count_of t y_true) labels).
  { rewrite map_map. apply map_ext. intros t. by apply confusion_row_sum. }
  split; [exact Hrows|]. split.
  - rewrite Hrows, sum_list_map_with. unfold count_of.
    rewrite (count_by_key Some labels y_true (fun b k => k = b) (fun _ => True)).
    + clear. induction y_true as [|k l IH]; [reflexivity|].
      rewrite filter_cons. simpl. by rewrite IH.
    + apply unique_labels_NoDup.
    + intros k b Hk [= <-]. apply unique_labels_elem_of, elem_of_app. by left.
    + intros b k. split; congruence.
    + intros k. split; eauto.
  - unfold labels. rewrite (confusion_diagonal y_true y_pred), sum_list_map_with.
    unfold count_pair.
    apply (count_by_key
      (fun tp : nat * nat => if decide (fst tp = snd tp) then Some (fst tp) else None)).
    + apply unique_labels_NoDup.
    + intros [a b] t Hin. cbn [fst snd]. destruct (decide (a = b)); [|discriminate].
      intros [= <-]. apply unique_labels_elem_of, elem_of_app. left.
      eapply elem_of_zip_l, Hin.
    + intros t [a b]. cbn [fst snd]. destruct (decide (a = b)) as [->|Hne].
      * split; [by intros [= ->] | by intros [= ->]].
      * split; [intros [= -> ->]; done | discriminate].
    + intros [a b]. cbn [fst snd]. destruct (decide (a = b)).
      * split; eauto.
      * split; [done | intros [? ?]; discriminate].
Qed.

Lemma confusion_matrix_sums_witness :
  map sum_list [[1; 1]; [0; 2]]%nat =
  map (fun t => count_of t [0; 0; 2; 2]%nat) (unique_labels [0; 0; 2; 2] [0; 2; 2; 2])%nat.
Proof.
  apply (confusion_matrix_sums [0; 0; 2; 2]%nat [0; 2; 2; 2]%nat). reflexivity.
Defined.

Example confusion_matrix_sample :
  confusion_matrix [0; 0; 2; 2]%nat [0; 2; 2; 2]%nat = Ok [[1; 1]; [0; 2]]%nat.
Proof. reflexivity. Qed.

(** ** [evaluate_model] and the classes of the encoder *)

(** Indices below [K] fill [unique_labels] up to [K] exactly when every
    index below [K] occurs. *)
Lemma unique_labels_full (y_true y_pred : list nat) (K : nat) :
  Forall (fun k => k < K)%nat (y_true ++ y_pred) ->
  (length (unique_labels y_true y_pred) = K <->
   forall k, (k < K)%nat -> k ∈ y_true ++ y_pred).
Proof.
  intros Hbound. rewrite Forall_forall in Hbound.
  pose proof (unique_labels_NoDup y_true y_pred) as Hnd.
  split.
  - intros Hlen k Hk. apply unique_labels_elem_of.
    assert (Hperm : unique_labels y_true y_pred ≡ₚ seq 0 K).
    { apply submseteq_length_Permutation; [|rewrite length_seq; lia].
      apply NoDup_submseteq; [exact Hnd|].
      intros x Hx. apply elem_of_seq. apply unique_labels_elem_of, Hbound in Hx. lia. }
    rewrite Hperm. apply elem_of_seq. lia.
  - intros Hall. transitivity (length (seq 0 K)); [|apply length_seq].
    apply Permutation_length.
    apply NoDup_Permutation; [exact Hnd | apply NoDup_seq|].
    intros x. rewrite unique_labels_elem_of, elem_of_seq. split.
    + intros Hx. apply Hbound in Hx. lia.
    + intros Hx. apply Hall. lia.
Qed.

(** No index at all leaves [unique_labels] empty, and only that does. *)
Lemma unique_labels_nil (y_true y_pred : list nat) :
  unique_labels y_true y_pred = [] <-> y_true ++ y_pred = [].
Proof.
  split.
  - intros Hnil. destruct (y_true ++ y_pred) as [|k ks] eqn:E; [reflexivity|].
    assert (Hk : k ∈ unique_labels y_true y_pred).
    { apply unique_labels_elem_of. rewrite E. by left. }
    rewrite Hnil in Hk. by apply elem_of_nil in Hk.
  - intros Hnil. destruct (unique_labels y_true y_pred) as [|k ks] eqn:E; [reflexivity|].
    assert (Hk : k ∈ y_true ++ y_pred).
    { apply unique_labels_elem_of. rewrite E. by left. }
    rewrite Hnil in Hk. by apply elem_of_nil in Hk.
Qed.

Section EvaluateFacts.
Context {ev : Evaluation}.

(** X22: when the network predicts, and the true and predicted indices are
    all below the number of classes of the encoder, [evaluate_model] returns
    normally exactly when the two index vectors have the same length, are
    not empty, and every class occurs among them.  With no sample at all it
    raises in the heat map and shows nothing.  With samples, the same length
    and a class that occurs in neither vector, it has already shown the heat
    map, whose matrix then has fewer rows than tick labels, and printed the
    report's heading when [classification_report] raises. *)
Theorem evaluate_model_needs_every_class (model : Network) (X_test : ndarray4)
    (y_test y_pred : list (list float32)) (label_encoder : LabelEncoder)
    (y_pred_classes y_true_classes : list nat) :
  model_predict model X_test = Ok y_pred ->
  np_argmax_axis1 y_pred = Ok y_pred_classes ->
  np_argmax_axis1 y_test = Ok y_true_classes ->
  Forall (fun k => k < length (classes_ label_encoder))%nat
         (y_true_classes ++ y_pred_classes) ->
  (fst (evaluate_model model X_test y_test label_encoder) = Ok tt <->
   length y_true_classes = length y_pred_classes /\
   y_true_classes <> [] /\
   forall k, (k < length (classes_ label_encoder))%nat ->
             k ∈ y_true_classes ++ y_pred_classes) /\
  (y_true_classes = [] -> y_pred_classes = [] ->
   exists e, evaluate_model model X_test y_test label_encoder = (Raise e, [])) /\
  (length y_true_classes = length y_pred_classes ->
   y_true_classes <> [] ->
   (exists k, (k < length (classes_ label_encoder))%nat /\
              k ∉ y_true_classes ++ y_pred_classes) ->
   exists e cm,
     evaluate_model model X_test y_test label_encoder =
     (Raise e, [Heatmap cm (classes_ label_encoder) (classes_ label_encoder);
                Printed ("Classification Report:" +:+ String "010" EmptyString)]) /\
     (0 < length cm < length (classes_ label_encoder))%nat).
Proof.
  intros Hpredict Hpred Htrue Hbound.
  pose proof (unique_labels_full _ _ _ Hbound) as Hfull.
  pose proof (unique_labels_nil y_true_classes y_pred_classes) as Hnil.
  unfold evaluate_model, classification_report, check_target_names, confusion_matrix.
  rewrite Hpredict, Hpred, Htrue.
  destruct (Nat.eqb_spec (length y_true_classes) (length y_pred_classes)) as [Hlen|Hlen];
    cbn [negb].
  - destruct (unique_labels y_true_classes y_pred_classes) as [|l labels] eqn:Elabels.
    + assert (Hempty : y_true_classes ++ y_pred_classes = []) by (by apply Hnil).
      apply app_eq_nil in Hempty as [-> ->].
      cbn [map sns_heatmap fst]. split; [|split].
      * split; [discriminate | intros (_ & Hne & _); done].
      * intros _ _. eexists. reflexivity.
      * intros _ Hne. done.
    + assert (Hne : y_true_classes <> []).
      { intros ->. destruct y_pred_classes; [|discriminate].
        assert (Hl : l :: labels = []) by (by apply Hnil). discriminate. }
      cbn [map sns_heatmap].
      destruct (Nat.eqb_spec (length (l :: labels))
                             (length (classes_ label_encoder))) as [HK|HK];
        cbn [negb bind fst].
      * split; [|split].
        -- split; [intros _; split; [exact Hlen | split; [exact Hne | by apply Hfull]]
                  | reflexivity].
        -- intros ->. done.
        -- intros _ _ (k & Hk & Hout). exfalso. apply Hout. by apply Hfull.
      * split; [|split].
        -- split; [discriminate|]. intros (_ & _ & Hall). exfalso. apply HK.
           by apply Hfull.
        -- intros ->. done.
        -- intros _ _ _. eexists _, _. split; [reflexivity|].
           cbn [length]. rewrite length_map.
           assert (Hle : (length (unique_labels y_true_classes y_pred_classes)
                          <= length (seq 0 (length (classes_ label_encoder))))%nat).
           { apply submseteq_length, NoDup_submseteq; [apply unique_labels_NoDup|].
             intros x Hx. apply elem_of_seq.
             rewrite Forall_forall in Hbound.
             apply unique_labels_elem_of, Hbound in Hx. lia. }
           rewrite length_seq, Elabels in Hle. cbn [length] in Hle, HK. lia.
  - cbn [fst]. split; [|split].
    + split; [discriminate | intros [? _]; done].
    + intros -> ->. done.
    + intros Heq. done.
Qed.
End EvaluateFacts.

Lemma evaluate_model_needs_every_class_witness :
  exists e cm,
    @evaluate_model demo_evaluation
      [ [f32_one; f32_zero; f32_zero]; [f32_zero; f32_zero; f32_three] ]
      no_samples
      [ [f32_one; f32_zero; f32_zero]; [f32_zero; f32_zero; f32_one] ]
      three_classes =
    (Raise e, [Heatmap cm (classes_ three_classes) (classes_ three_classes);
               Printed ("Classification Report:" +:+ String "010" EmptyString)]) /\
    (0 < length cm < length (classes_ three_classes))%nat.
Proof.
  destruct (@evaluate_model_needs_every_class demo_evaluation
              [ [f32_one; f32_zero; f32_zero]; [f32_zero; f32_zero; f32_three] ]
              no_samples
              [ [f32_one; f32_zero; f32_zero]; [f32_zero; f32_zero; f32_one] ]
              [ [f32_one; f32_zero; f32_zero]; [f32_zero; f32_zero; f32_three] ]
              three_classes [0; 2]%nat [0; 2]%nat) as (_ & _ & H);
    [reflexivity | reflexivity | reflexivity | repeat constructor |].
  apply H; [reflexivity | discriminate |].
  exists 1%nat. split; [simpl; lia|].
  rewrite !elem_of_app, !elem_of_cons, !elem_of_nil. intros H1.
  repeat destruct H1 as [H1|H1]; discriminate || contradiction.
Defined.

Example evaluate_model_all_classes :
  @evaluate_model demo_evaluation
    [ [f32_one; f32_zero; f32_zero]; [f32_zero; f32_three; f32_one] ]
    no_samples
    [ [f32_one; f32_zero; f32_zero]; [f32_zero; f32_zero; f32_one] ]
    three_classes =
  (Ok tt,
   [ Heatmap [[1; 0; 0]; [0; 0; 0]; [0; 1; 0]]%nat
       ["angry"; "calm"; "sad"] ["angry"; "calm"; "sad"];
     Printed ("Classification Report:" +:+ String "010" EmptyString);
     Printed "precision recall f1-score support" ]).
Proof. reflexivity. Qed.

(** ** More runs on the small inputs *)

Lemma scan_succeeds_iff_witness :
  exists n, @py_int demo_env (actor_stem "03-01-09-01-01-01-11.wav") = Ok n.
Proof.
  apply (proj1 (@scan_succeeds_iff demo_env root_dirs)) with (subdir := "input/Actor_12").
  - eexists. reflexivity.
  - apply list_elem_of_In. vm_compute. tauto.
  - reflexivity.
Defined.

Lemma seven_part_wav_six_hyphens_witness :
  endswith "03-01-05-01-01-01-12.wav" ".wav" = true /\
  count_char "-" "03-01-05-01-01-01-12.wav" = 6%nat.
Proof.
  apply (proj1 (seven_part_wav_six_hyphens "03-01-05-01-01-01-12.wav")). reflexivity.
Defined.

Lemma fit_transform_onto_witness :
  1%nat ∈ snd (fit_transform ["sad"; "angry"; "sad"; "calm"]).
Proof.
  apply (proj2 (fit_transform_onto ["sad"; "angry"; "sad"; "calm"] 1)).
  vm_compute. lia.
Defined.

Lemma load_data_outcomes_witness :
  (exists loaded, @load_data demo_numpy "X_mfcc.npy" "y_labels.npy" = Ok loaded) /\
  @load_data demo_numpy "missing.npy" "y_labels.npy" =
  Raise (Exn "FileNotFoundError" true
           "[Errno 2] No such file or directory: 'missing.npy'").
Proof.
  destruct (@load_data_outcomes demo_numpy "X_mfcc.npy" "y_labels.npy") as [Hiff _].
  destruct (@load_data_outcomes demo_numpy "missing.npy" "y_labels.npy")
    as (_ & Hfeatures & _).
  split.
  - apply Hiff. exists demo_features, ["sad"; "calm"].
    split; [reflexivity|]. split; [reflexivity | discriminate].
  - apply Hfeatures. reflexivity.
Defined.
